(** * JavaScript Learning Platform: the run/report flow of [App.tsx]

    The development embeds the lesson component of the tutorial application:
    the script that [handleRunCode] builds for the hidden runner frame, the
    handlers that move the view state ([handleResetCode], [handleMessage],
    the navigation handlers, the hint button), the two effects that load and
    save the editor text, and the early returns of the render function.

    The script is JavaScript text with three kinds of holes: the editor text,
    the bodies of the test assertions and the body of the single validation.
    What a piece of text does when the frame runs it is the business of the
    host's script engine, which is a parameter here ([Engine]); the fixed part
    of the script, the template of [handleRunCode], is embedded statement by
    statement over a small state-and-exception monad.

    The page loaded in the frame is not among the sources. It is taken to run
    the script it receives as it stands, with no handler of its own around
    it. The text put in a hole is taken to be what the template expects
    there: statements, or a function body, that end (normally or by a throw),
    that do not post messages of their own and do not redeclare [hasTests].

    The sources hold three generations of the component. The newest one is
    embedded in full; the handlers of the first one (no tests, no test
    result) are in [Legacy], with the lemmas that relate the two.

    The second part of the file covers the rest of the component: the
    navigation buttons and keyboard shortcuts, the glossary, the theme, the
    splitters, what the result panes show, and the component as a machine
    whose steps are a handler followed by the effects it triggers. *)

From stdpp Require Import gmap strings list pretty.

(** ** JavaScript values seen by the harness *)

(** The values a lesson's code can return or throw, as far as the harness
    looks at them: it tests truthiness, reads the property [message], applies
    [String(...)] and concatenates with a string. Numbers are the integers. *)
Inductive JsVal : Type :=
  | Undefined
  | Null
  | Bool (b : bool)
  | Num (n : Z)
  | Str (s : string)
  | ErrorObj (name message : string).

(** ToBoolean *)
Definition truthy (v : JsVal) : bool :=
  match v with
  | Undefined | Null => false
  | Bool b => b
  | Num n => negb (Z.eqb n 0)
  | Str s => negb (String.eqb s "")
  | ErrorObj _ _ => true
  end.

(** [String(v)]; an error object prints as [name: message], or as its name
    alone when the message is empty. *)
Definition toString (v : JsVal) : string :=
  match v with
  | Undefined => "undefined"
  | Null => "null"
  | Bool true => "true"
  | Bool false => "false"
  | Num n => pretty n
  | Str s => s
  | ErrorObj name message =>
      if String.eqb message "" then name else name +:+ ": " +:+ message
  end.

(** How a statement or a call ends. *)
Inductive completion (A : Type) : Type :=
  | Normal (a : A)
  | Throw (v : JsVal).
Arguments Normal {A} a.
Arguments Throw {A} v.

(** [v.message]: reading a property of [undefined] or [null] throws a
    [TypeError]; primitives have no such property. *)
Definition get_message (v : JsVal) : completion JsVal :=
  match v with
  | Undefined =>
      Throw (ErrorObj "TypeError"
               "Cannot read properties of undefined (reading 'message')")
  | Null =>
      Throw (ErrorObj "TypeError"
               "Cannot read properties of null (reading 'message')")
  | Bool _ | Num _ | Str _ => Normal Undefined
  | ErrorObj _ message => Normal (Str message)
  end.

(** ** Records of [App.tsx] *)

Record TestCase : Type := mkTestCase {
  name : string;
  assertion : string
}.

Record Lesson : Type := mkLesson {
  id : string;
  title : string;
  explanation : string;
  challenge : string;
  initialCode : string;
  validation : option string;
  tests : option (list TestCase);
  hint : string
}.

(** An entry of [details]. The harness stores the assertion's return value
    itself under [passed]; [error] is present only in entries pushed by the
    per-test [catch]. *)
Record Detail : Type := mkDetail {
  d_name : string;
  d_passed : JsVal;
  d_error : option string
}.

Record TestRunResult : Type := mkTestRunResult {
  passCount : nat;
  totalCount : nat;
  details : list Detail
}.

(** What the script posts to [window.parent]. *)
Inductive Message : Type :=
  | MsgResult (payload : string)
  | MsgTestResults (payload : TestRunResult).

#[global] Instance JsVal_eq_dec : EqDecision JsVal.
Proof. solve_decision. Defined.
#[global] Instance TestCase_eq_dec : EqDecision TestCase.
Proof. solve_decision. Defined.
#[global] Instance Lesson_eq_dec : EqDecision Lesson.
Proof. solve_decision. Defined.
#[global] Instance Detail_eq_dec : EqDecision Detail.
Proof. solve_decision. Defined.
#[global] Instance TestRunResult_eq_dec : EqDecision TestRunResult.
Proof. solve_decision. Defined.
#[global] Instance Message_eq_dec : EqDecision Message.
Proof. solve_decision. Defined.

(** ** The script engine and the monad of the runner frame *)

(** The host's engine: what a statement list does in an environment, and what
    calling [function(){ body }] does. Both end, normally or by a throw. *)
Record Engine : Type := mkEngine {
  Env : Type;
  exec : string -> Env -> completion unit * Env;
  call : string -> Env -> completion JsVal * Env
}.

(** The frame while a script runs: the engine's environment and the messages
    posted to the parent so far, oldest first. *)
Record World (E : Engine) : Type := mkWorld {
  env : Env E;
  outbox : list Message
}.
Arguments mkWorld {E} env outbox.
Arguments env {E} w.
Arguments outbox {E} w.

Definition JS (E : Engine) (A : Type) : Type :=
  World E -> completion A * World E.

Definition ret {E A} (a : A) : JS E A := fun w => (Normal a, w).

Definition bind {E A B} (m : JS E A) (k : A -> JS E B) : JS E B :=
  fun w =>
    match m w with
    | (Normal a, w') => k a w'
    | (Throw v, w') => (Throw v, w')
    end.

Notation "'let*' x ':=' m 'in' k" := (bind m (fun x => k))
  (at level 10, x name, m at level 100, k at level 200).
Notation "m '>>' k" := (bind m (fun _ => k))
  (at level 100, k at level 200, right associativity).

(** [try { body } catch (e) { handler }]: what the body did to the frame
    before it threw stays done. *)
Definition try_catch {E A} (body : JS E A) (handler : JsVal -> JS E A)
  : JS E A :=
  fun w =>
    match body w with
    | (Normal a, w') => (Normal a, w')
    | (Throw v, w') => handler v w'
    end.

Definition lift_completion {E A} (c : completion A) : JS E A :=
  fun w => (c, w).

Definition run_code {E} (src : string) : JS E unit :=
  fun w =>
    let '(c, e) := exec E src (env w) in (c, mkWorld e (outbox w)).

Definition call_fn {E} (body : string) : JS E JsVal :=
  fun w =>
    let '(c, e) := call E body (env w) in (c, mkWorld e (outbox w)).

(** [window.parent.postMessage(m, '*')] *)
Definition postMessage {E} (m : Message) : JS E unit :=
  fun w => (Normal tt, mkWorld (env w) (outbox w ++ [m])).

(** ** The script of [handleRunCode] *)

(** An element of the array literal [testsArrayLiteral]:
    [{name: <JSON of t.name>, fn: function(){ <t.assertion> }}]. The name
    goes through [JSON.stringify] and back through the script parser, which
    gives the same string. *)
Record TestFn : Type := mkTestFn {
  tf_name : string;
  tf_body : string
}.

(** The template with its holes filled: [code], [String(hasTests)],
    [testsArrayLiteral] and [lesson.validation ?? 'return false;']. *)
Record Script : Type := mkScript {
  s_code : string;
  s_hasTests : bool;
  s_tests : list TestFn;
  s_validation : string
}.

(** [String(err && err.message ? err.message : err)] of the per-test catch;
    [&&] binds tighter than [?:], and [err.message] is read only when [err]
    is truthy. *)
Definition test_error_text {E} (err : JsVal) : JS E string :=
  let* guard :=
    (if truthy err then lift_completion (get_message err) else ret err) in
  if truthy guard
  then let* m := lift_completion (get_message err) in ret (toString m)
  else ret (toString err).

(** One turn of [for (const t of tests)], on the loop's two variables. *)
Definition run_test {E} (t : TestFn) (acc : nat * list Detail)
  : JS E (nat * list Detail) :=
  let '(passCount, details) := acc in
  try_catch
    (let* passed := call_fn (tf_body t) in
     ret (if truthy passed then passCount + 1 else passCount,
          details ++ [mkDetail (tf_name t) passed None]))
    (fun err =>
       let* text := test_error_text err in
       ret (passCount,
            details ++ [mkDetail (tf_name t) (Bool false) (Some text)])).

Fixpoint run_tests {E} (tests : list TestFn) (acc : nat * list Detail)
  : JS E (nat * list Detail) :=
  match tests with
  | [] => ret acc
  | t :: rest => let* acc' := run_test t acc in run_tests rest acc'
  end.

(** The text [fullScript], run by the frame. *)
Definition fullScript {E} (s : Script) : JS E unit :=
  try_catch
    (run_code (s_code s) >>
     if s_hasTests s then
       let tests := s_tests s in
       let* acc := run_tests tests (0, []) in
       postMessage
         (MsgTestResults
            (mkTestRunResult (fst acc) (length tests) (snd acc)))
     else
       let* result := call_fn (s_validation s) in
       postMessage
         (MsgResult (if truthy result then "Success! Correct!"
                     else "Keep trying! The validation failed.")))
    (fun e =>
       let* m := lift_completion (get_message e) in
       postMessage (MsgResult ("Error: " +:+ toString m))).

(** ** View state of the component *)

(** The [useState] cells that the run/report flow touches. *)
Record AppState : Type := mkApp {
  lessons : list Lesson;
  currentLessonIndex : nat;
  code : string;
  result : string;
  testResult : option TestRunResult;
  loading : bool;
  error : option string;
  showHint : bool
}.

#[global] Instance AppState_eq_dec : EqDecision AppState.
Proof. solve_decision. Defined.

Definition initialState : AppState :=
  mkApp [] 0 "" "" None true None false.

Definition setLessons (v : list Lesson) (st : AppState) : AppState :=
  mkApp v (currentLessonIndex st) (code st) (result st) (testResult st)
        (loading st) (error st) (showHint st).
Definition setCurrentLessonIndex (v : nat) (st : AppState) : AppState :=
  mkApp (lessons st) v (code st) (result st) (testResult st)
        (loading st) (error st) (showHint st).
Definition setCode (v : string) (st : AppState) : AppState :=
  mkApp (lessons st) (currentLessonIndex st) v (result st) (testResult st)
        (loading st) (error st) (showHint st).
Definition setResult (v : string) (st : AppState) : AppState :=
  mkApp (lessons st) (currentLessonIndex st) (code st) v (testResult st)
        (loading st) (error st) (showHint st).
Definition setTestResult (v : option TestRunResult) (st : AppState)
  : AppState :=
  mkApp (lessons st) (currentLessonIndex st) (code st) (result st) v
        (loading st) (error st) (showHint st).
Definition setLoading (v : bool) (st : AppState) : AppState :=
  mkApp (lessons st) (currentLessonIndex st) (code st) (result st)
        (testResult st) v (error st) (showHint st).
Definition setError (v : option string) (st : AppState) : AppState :=
  mkApp (lessons st) (currentLessonIndex st) (code st) (result st)
        (testResult st) (loading st) v (showHint st).
Definition setShowHint (v : bool) (st : AppState) : AppState :=
  mkApp (lessons st) (currentLessonIndex st) (code st) (result st)
        (testResult st) (loading st) (error st) v.

(** [localStorage]: [getItem] is the lookup ([None] for [null]), [setItem]
    the insertion, [removeItem] the deletion. *)
Abbreviation Storage := (gmap string string).

(** [`code-lesson-${id}`] *)
Definition codeKey (lesson_id : string) : string :=
  "code-lesson-" +:+ lesson_id.

(** ** Handlers *)

(** A handler that reads [lessons[currentLessonIndex]] where there is no
    such element raises a [TypeError] on the first property it reads; such
    handlers return [None] then. *)

(** What [handleRunCode] does with the frame. *)
Inductive RunRequest : Type :=
  | NoFrame
  | PostedScript (s : Script).

Definition hasTests (lesson : Lesson) : bool :=
  match tests lesson with
  | Some (_ :: _) => true
  | _ => false
  end.

(** [t => `{name:${JSON.stringify(t.name)}, fn:function(){ ${t.assertion} }}`] *)
Definition testFn (t : TestCase) : TestFn :=
  mkTestFn (name t) (assertion t).

Definition testsArrayLiteral (lesson : Lesson) : list TestFn :=
  if hasTests lesson then testFn <$> default [] (tests lesson) else [].

Definition buildScript (lesson : Lesson) (code : string) : Script :=
  mkScript code (hasTests lesson) (testsArrayLiteral lesson)
           (default "return false;" (validation lesson)).

(** [frame] says whether the element [preview] and its [contentWindow]
    exist. The handler sets no state. *)
Definition handleRunCode (frame : bool) (st : AppState) : option RunRequest :=
  if frame then
    lesson ← lessons st !! currentLessonIndex st;
    Some (PostedScript (buildScript lesson (code st)))
  else Some NoFrame.

Definition handleCodeChange (value : string) (st : AppState) : AppState :=
  setCode value st.

Definition goToNextLesson (st : AppState) : AppState :=
  if (Z.of_nat (currentLessonIndex st) <? Z.of_nat (length (lessons st)) - 1)%Z
  then
    let nextIndex := currentLessonIndex st + 1 in
    setShowHint false
      (setTestResult None (setResult "" (setCurrentLessonIndex nextIndex st)))
  else st.

Definition goToPreviousLesson (st : AppState) : AppState :=
  if (0 <? currentLessonIndex st)%nat
  then
    let prevIndex := currentLessonIndex st - 1 in
    setShowHint false
      (setTestResult None (setResult "" (setCurrentLessonIndex prevIndex st)))
  else st.

(** [newIndex] is the value of the chosen option of the drop-down. *)
Definition handleLessonSelect (newIndex : nat) (st : AppState) : AppState :=
  setShowHint false
    (setTestResult None (setResult "" (setCurrentLessonIndex newIndex st))).

Definition handleResetCode (st : AppState) (storage : Storage)
  : option (AppState * Storage) :=
  if (0 <? length (lessons st))%nat then
    currentLesson ← lessons st !! currentLessonIndex st;
    let storage' := delete (codeKey (id currentLesson)) storage in
    Some (setTestResult None
            (setResult "Code has been reset."
               (setCode (initialCode currentLesson) st)),
          storage')
  else Some (st, storage).

(** [event.data] as the listener tells it apart. *)
Inductive EventData : Type :=
  | DataResult (payload : string)
  | DataTestResults (payload : option TestRunResult)
  | DataOther.

(** [None] stands for a missing event or missing [event.data]. *)
Definition handleMessage (event : option EventData) (st : AppState)
  : AppState :=
  match event with
  | None => st
  | Some (DataResult payload) => setResult payload (setTestResult None st)
  | Some (DataTestResults (Some payload)) =>
      setTestResult (Some payload) (setResult "" st)
  | Some (DataTestResults None) => st
  | Some DataOther => st
  end.

(** The data of the event that a posted message raises in the parent. *)
Definition deliver (m : Message) : EventData :=
  match m with
  | MsgResult payload => DataResult payload
  | MsgTestResults payload => DataTestResults (Some payload)
  end.

(** The hint button of one render: [() => setShowHint(!showHint)] closes
    over the [showHint] of the render that created it. *)
Definition hintOnClick (rendered : AppState) (st : AppState) : AppState :=
  setShowHint (negb (showHint rendered)) st.

(** A click on the button as currently rendered. *)
Definition clickHint (st : AppState) : AppState := hintOnClick st st.

(** ** Effects *)

(** [savedCode || initialCode]: the empty string is falsy. *)
Definition savedOrInitial (savedCode : option string) (initial : string)
  : string :=
  match savedCode with
  | Some s => if String.eqb s "" then initial else s
  | None => initial
  end.

(** Load initial code from localStorage or default. *)
Definition loadCodeEffect (st : AppState) (storage : Storage)
  : option AppState :=
  if (0 <? length (lessons st))%nat then
    lesson ← lessons st !! currentLessonIndex st;
    let savedCode := storage !! codeKey (id lesson) in
    Some (setCode (savedOrInitial savedCode (initialCode lesson)) st)
  else Some st.

(** Save code to localStorage on change. *)
Definition saveCodeEffect (st : AppState) (storage : Storage)
  : option Storage :=
  if (0 <? length (lessons st))%nat then
    lesson ← lessons st !! currentLessonIndex st;
    Some (<[codeKey (id lesson) := code st]> storage)
  else Some storage.

Definition loadDeps (st : AppState) : nat * list Lesson :=
  (currentLessonIndex st, lessons st).
Definition saveDeps (st : AppState) : string * nat * list Lesson :=
  (code st, currentLessonIndex st, lessons st).

(** The two effects after render [cur] is committed, in the order of their
    declaration. An effect runs when one of its dependencies differs from
    the previous render [prev]; it sees the values of [cur]. The state
    returned is that of the next render. *)
Definition runEffects (prev cur : AppState) (storage : Storage)
  : option (AppState * Storage) :=
  next ← (if bool_decide (loadDeps prev = loadDeps cur) then Some cur
          else loadCodeEffect cur storage);
  storage' ← (if bool_decide (saveDeps prev = saveDeps cur) then Some storage
              else saveCodeEffect cur storage);
  Some (next, storage').

(** Renders and their effects until a render changes nothing. [None] when
    an effect raises a [TypeError], or when [fuel] renders were not enough. *)
Fixpoint settle (fuel : nat) (prev cur : AppState) (storage : Storage)
  : option (AppState * Storage) :=
  match fuel with
  | 0 => None
  | S fuel' =>
      '(next, storage') ← runEffects prev cur storage;
      if bool_decide (next = cur) then Some (cur, storage')
      else settle fuel' cur next storage'
  end.

(** The lesson fetch, as the promise chain sees it. *)
Inductive FetchOutcome : Type :=
  | NetworkError
  | Response (ok : bool) (status : nat) (json : option (list Lesson)).

Definition fetchErrorText : string :=
  "Failed to load lessons. Check the browser console for more details.".

(** [.then(res => ...).then(data => setLessons(data)).catch(...)
    .finally(() => setLoading(false))]; [json = None] is a body that does not
    parse. *)
Definition fetchLessonsEffect (o : FetchOutcome) (st : AppState) : AppState :=
  let parsed :=
    match o with
    | NetworkError => None
    | Response ok _ json => if negb ok then None else json
    end in
  let st' :=
    match parsed with
    | Some data => setLessons data st
    | None => setError (Some fetchErrorText) st
    end in
  setLoading false st'.

(** ** Render *)

Inductive View : Type :=
  | StatusPane (className text : string)
  | LessonView (lesson : Lesson) (hintBox : bool) (resultText : string)
               (tests : option TestRunResult) (editor : string).

(** [if (error)]: [null] and the empty string are falsy. *)
Definition errorShown (e : option string) : option string :=
  match e with
  | Some text => if String.eqb text "" then None else Some text
  | None => None
  end.

(** The three early returns, then the lesson view, which reads
    [lesson.title] first. *)
Definition render (st : AppState) : option View :=
  if loading st then Some (StatusPane "status-pane" "Loading...")
  else
    match errorShown (error st) with
    | Some text => Some (StatusPane "status-pane error-pane" text)
    | None =>
        if (length (lessons st) =? 0)%nat
        then Some (StatusPane "status-pane" "No lessons found.")
        else
          lesson ← lessons st !! currentLessonIndex st;
          Some (LessonView lesson (showHint st) (result st)
                           (testResult st) (code st))
    end.

(** ** The first generation of the component *)

(** [App.tsx] as first written: a lesson has one mandatory validation, there
    is no test result in the state, and the script is the [else] branch of
    the later one. *)
Module Legacy.

Record AppState : Type := mkApp {
  lessons : list Lesson;
  currentLessonIndex : nat;
  code : string;
  result : string;
  loading : bool;
  error : option string;
  showHint : bool
}.

Definition handleResetCode (st : AppState) (storage : Storage)
  : option (AppState * Storage) :=
  if (0 <? length (lessons st))%nat then
    currentLesson ← lessons st !! currentLessonIndex st;
    let storage' := delete (codeKey (id currentLesson)) storage in
    Some (mkApp (lessons st) (currentLessonIndex st)
                (initialCode currentLesson) "Code has been reset."
                (loading st) (error st) (showHint st),
          storage')
  else Some (st, storage).

Definition loadCodeEffect (st : AppState) (storage : Storage)
  : option AppState :=
  if (0 <? length (lessons st))%nat then
    lesson ← lessons st !! currentLessonIndex st;
    let savedCode := storage !! codeKey (id lesson) in
    Some (mkApp (lessons st) (currentLessonIndex st)
                (savedOrInitial savedCode (initialCode lesson)) (result st)
                (loading st) (error st) (showHint st))
  else Some st.

Definition clickHint (st : AppState) : AppState :=
  mkApp (lessons st) (currentLessonIndex st) (code st) (result st)
        (loading st) (error st) (negb (showHint st)).

End Legacy.

(** The state of the first generation inside the later one. *)
Definition forgetTests (st : AppState) : Legacy.AppState :=
  Legacy.mkApp (lessons st) (currentLessonIndex st) (code st) (result st)
               (loading st) (error st) (showHint st).

(** ** A miniature engine for the examples *)

(** An engine that knows a handful of programs, enough to run the harness on
    concrete lessons. Its environment counts the statements and calls run. *)
Module Mini.

Definition exec (src : string) (n : nat) : completion unit * nat :=
  if String.eqb src "throw null" then (Throw Null, S n)
  else if String.eqb src "throw 'boom'" then (Throw (Str "boom"), S n)
  else if String.eqb src "throw new Error('boom')"
       then (Throw (ErrorObj "Error" "boom"), S n)
  else (Normal tt, S n).

Definition call (body : string) (n : nat) : completion JsVal * nat :=
  if String.eqb body "return true;" then (Normal (Bool true), S n)
  else if String.eqb body "return false;" then (Normal (Bool false), S n)
  else if String.eqb body "return 1;" then (Normal (Num 1), S n)
  else if String.eqb body "throw null" then (Throw Null, S n)
  else if String.eqb body "throw new Error('nope')"
       then (Throw (ErrorObj "Error" "nope"), S n)
  else (Normal Undefined, S n).

Definition engine : Engine := mkEngine nat exec call.

Definition lessonWithTests : Lesson :=
  mkLesson "sum" "Sum" "Adding numbers." "Write add." "// add here"
           None
           (Some [mkTestCase "adds" "return true;";
                  mkTestCase "is a number" "return 1;"])
           "Use +.".

Definition lessonMixed : Lesson :=
  mkLesson "mix" "Mixed" "Some tests fail." "Do it." ""
           (Some "return true;")
           (Some [mkTestCase "ok" "return true;";
                  mkTestCase "bad" "return false;";
                  mkTestCase "throws" "throw new Error('nope')";
                  mkTestCase "null" "throw null"])
           "".

Definition lessonValidated : Lesson :=
  mkLesson "val" "Validated" "One check." "Do it." "let x = 1"
           (Some "return true;") None "".

Definition lessonBare : Lesson :=
  mkLesson "bare" "Bare" "No check at all." "Do it." "let y = 2"
           None (Some []) "".

Definition lessonThrowing : Lesson :=
  mkLesson "thr" "Throwing" "The check throws." "Do it." ""
           (Some "throw null") None "".

Definition app (ls : list Lesson) (i : nat) (text : string) : AppState :=
  mkApp ls i text "" None false None false.

End Mini.

(** The messages a script leaves in the outbox of a fresh frame. *)
Definition posted {E} (s : Script) (e : Env E) : list Message :=
  outbox (snd (fullScript s (mkWorld e []))).

(** Whether the script ends normally. *)
Definition escapes {E} (s : Script) (e : Env E) : option JsVal :=
  match fst (fullScript s (mkWorld e [])) with
  | Normal _ => None
  | Throw v => Some v
  end.

(** ** Notions used in the statements *)

(** The value that reaches the outer [catch], if any: a throw of the editor
    text, or of the single validation when the lesson runs no tests. The
    per-test [catch] keeps the throws of the assertions. *)
Definition caught {E} (s : Script) (e0 : Env E) : option JsVal :=
  match exec E (s_code s) e0 with
  | (Throw v, _) => Some v
  | (Normal _, e1) =>
      if s_hasTests s then None
      else match call E (s_validation s) e1 with
           | (Throw v, _) => Some v
           | (Normal _, _) => None
           end
  end.


(** The text the per-test catch stores for a thrown value: the message of an
    error object that has one, [String(err)] otherwise. *)
Definition errorText (err : JsVal) : string :=
  match err with
  | ErrorObj _ message =>
      if String.eqb message "" then toString err else message
  | _ => toString err
  end.

(** Number of entries whose [passed] is truthy. *)
Definition countPassed (ds : list Detail) : nat :=
  length (List.filter (fun d => truthy (d_passed d)) ds).

(** Every assertion returns a truthy value, each one run in the environment
    its predecessors left. *)
Fixpoint allPass (E : Engine) (tests : list TestFn) (e : Env E) : bool :=
  match tests with
  | [] => true
  | t :: rest =>
      match call E (tf_body t) e with
      | (Normal v, e') => truthy v && allPass E rest e'
      | (Throw _, _) => false
      end
  end.

(** [undefined] and [null], the values without properties. *)
Definition nullish (v : JsVal) : bool :=
  match v with
  | Undefined | Null => true
  | _ => false
  end.

(** The entry names are those of the tests and an entry with an [error]
    has [passed: false]. *)
Definition errorOnlyOnFailure (d : Detail) : Prop :=
  is_Some (d_error d) -> d_passed d = Bool false.

(** * The rest of the component *)

(** ** What the panes show *)




(** Class of the test panel:
    [passCount === totalCount ? 'success' : 'failure']. *)
Definition panelClass (r : TestRunResult) : string :=
  if (passCount r =? totalCount r)%nat then "success" else "failure".

(** Class of one line of the panel, and the error text it appends:
    [d.passed ? 'passed' : 'failed'] and [d.error ? ... : '']. *)
Definition entryClass (d : Detail) : string :=
  if truthy (d_passed d) then "passed" else "failed".

Definition entryError (d : Detail) : option string :=
  errorShown (d_error d).

(** [disabled] of the two navigation buttons. *)
Definition previousDisabled (st : AppState) : bool :=
  (currentLessonIndex st =? 0)%nat.

Definition nextDisabled (st : AppState) : bool :=
  (Z.of_nat (currentLessonIndex st)
     =? Z.of_nat (length (lessons st)) - 1)%Z.

(** ** Glossary *)

Record GlossaryItem : Type := mkGlossaryItem {
  term : string;
  definition : string;
  example : option string
}.

Inductive GlossaryFetch : Type :=
  | GlossaryNetworkError
  | GlossaryResponse (ok : bool) (json : option (list GlossaryItem)).

(** [.then(res => (res.ok ? res.json() : [])).then(items =>
    setGlossary(items)).catch(() => setGlossary([]))]; the value returned is
    the new [glossary]. *)
Definition fetchGlossaryEffect (o : GlossaryFetch) : list GlossaryItem :=
  match o with
  | GlossaryNetworkError => []
  | GlossaryResponse ok json =>
      if ok then match json with
                 | Some items => items
                 | None => []
                 end
      else []
  end.

(** [expandedGlossary]: a record from indices to booleans; a missing index
    reads as [undefined]. *)
Abbreviation Expanded := (gmap nat bool).

(** [!!expandedGlossary[idx]] *)
Definition isOpen (expanded : Expanded) (idx : nat) : bool :=
  match expanded !! idx with
  | Some b => b
  | None => false
  end.

(** [prev => ({ ...prev, [idx]: !prev[idx] })] *)
Definition toggleGlossary (idx : nat) (prev : Expanded) : Expanded :=
  <[idx := negb (isOpen prev idx)]> prev.

(** One row of the glossary pane: the term, whether the row is open, and
    the content shown when it is. *)
Record GlossaryRow : Type := mkGlossaryRow {
  row_term : string;
  row_open : bool;
  row_content : option (string * option string)
}.

Definition glossaryRow (expanded : Expanded) (idx : nat) (g : GlossaryItem)
  : GlossaryRow :=
  let open := isOpen expanded idx in
  mkGlossaryRow (term g) open
    (if open then Some (definition g, errorShown (example g)) else None).

(** The body of the glossary pane: the note shown for an empty glossary,
    and the rows. *)
Definition renderGlossary (glossary : list GlossaryItem) (expanded : Expanded)
  : bool * list GlossaryRow :=
  ((length glossary =? 0)%nat, imap (glossaryRow expanded) glossary).

(** ** Theme *)

Inductive Theme : Type := Dark | Light.

Definition themeName (t : Theme) : string :=
  match t with
  | Dark => "dark"
  | Light => "light"
  end.

(** The initializer of [theme]; [prefersDark] is what
    [window.matchMedia && window.matchMedia(...).matches] gives. *)
Definition initialTheme (storage : Storage) (prefersDark : bool) : Theme :=
  match storage !! "ui-theme" with
  | Some stored =>
      if String.eqb stored "light" then Light
      else if String.eqb stored "dark" then Dark
      else if prefersDark then Dark else Light
  | None => if prefersDark then Dark else Light
  end.

(** [prev => (prev === 'dark' ? 'light' : 'dark')] *)
Definition toggleTheme (prev : Theme) : Theme :=
  match prev with
  | Dark => Light
  | Light => Dark
  end.

(** Apply theme to document root: the attribute [data-theme] and the
    storage after the effect. *)
Definition themeEffect (theme : Theme) (storage : Storage)
  : string * Storage :=
  (themeName theme, <["ui-theme" := themeName theme]> storage).

(** ** Keyboard shortcuts *)

Record KeyboardEvent : Type := mkKeyboardEvent {
  ctrlKey : bool;
  metaKey : bool;
  altKey : bool;
  shiftKey : bool;
  key : string
}.

(** [toLowerCase] on the letters A to Z; the names of keys are ASCII. *)
Definition lowerAscii (c : Stdlib.Strings.Ascii.ascii)
  : Stdlib.Strings.Ascii.ascii :=
  let n := Stdlib.Strings.Ascii.nat_of_ascii c in
  if (65 <=? n)%nat && (n <=? 90)%nat
  then Stdlib.Strings.Ascii.ascii_of_nat (n + 32)
  else c.

Fixpoint toLowerCase (s : string) : string :=
  match s with
  | EmptyString => EmptyString
  | String c rest => String (lowerAscii c) (toLowerCase rest)
  end.

(** What one [keydown] did: the states after it, what [handleRunCode] did
    with the frame if it was called, and whether [preventDefault] was
    called. *)
Record KeyOutcome : Type := mkKeyOutcome {
  ko_app : AppState;
  ko_theme : Theme;
  ko_request : option RunRequest;
  ko_prevented : bool
}.

Definition onKeyDown (frame : bool) (e : KeyboardEvent) (st : AppState)
    (theme : Theme) : option KeyOutcome :=
  if (ctrlKey e || metaKey e) && String.eqb (key e) "Enter" then
    request ← handleRunCode frame st;
    Some (mkKeyOutcome st theme (Some request) true)
  else if altKey e && String.eqb (key e) "ArrowLeft" then
    Some (mkKeyOutcome (goToPreviousLesson st) theme None true)
  else if altKey e && String.eqb (key e) "ArrowRight" then
    Some (mkKeyOutcome (goToNextLesson st) theme None true)
  else if negb (ctrlKey e) && negb (metaKey e) && negb (altKey e)
          && String.eqb (toLowerCase (key e)) "t" then
    Some (mkKeyOutcome st (toggleTheme theme) None false)
  else Some (mkKeyOutcome st theme None false).

(** ** The component as a machine *)

(** What can happen to the lesson state: the fetch ends, a navigation
    handler runs (button or shortcut), an option of the drop-down is chosen,
    the reset or the hint button is clicked, the editor text changes, a
    message arrives. *)
Inductive Event : Type :=
  | EvFetched (o : FetchOutcome)
  | EvNext
  | EvPrevious
  | EvSelect (newIndex : nat)
  | EvReset
  | EvHint
  | EvEdit (value : string)
  | EvMessage (event : option EventData).

(** The lesson view, with its buttons, drop-down and editor, is on screen. *)
Definition controlsShown (st : AppState) : bool :=
  match render st with
  | Some (LessonView _ _ _ _ _) => true
  | _ => false
  end.

(** The fetch ends once, while the component is loading. The shortcuts and
    the message listener are on the window; the rest needs the lesson view,
    and the drop-down has one option per lesson. *)
Definition enabled (ev : Event) (st : AppState) : bool :=
  match ev with
  | EvFetched _ => loading st
  | EvNext | EvPrevious | EvMessage _ => true
  | EvSelect newIndex =>
      controlsShown st && (newIndex <? length (lessons st))%nat
  | EvReset | EvHint | EvEdit _ => controlsShown st
  end.

Definition handle (ev : Event) (st : AppState) (storage : Storage)
  : option (AppState * Storage) :=
  match ev with
  | EvFetched o => Some (fetchLessonsEffect o st, storage)
  | EvNext => Some (goToNextLesson st, storage)
  | EvPrevious => Some (goToPreviousLesson st, storage)
  | EvSelect newIndex => Some (handleLessonSelect newIndex st, storage)
  | EvReset => handleResetCode st storage
  | EvHint => Some (clickHint st, storage)
  | EvEdit value => Some (handleCodeChange value st, storage)
  | EvMessage event => Some (handleMessage event st, storage)
  end.

(** The handler, then the renders and effects that follow it. *)
Definition step (ev : Event) (s : AppState * Storage)
  : option (AppState * Storage) :=
  '(st', storage') ← handle ev s.1 s.2;
  settle 2 s.1 st' storage'.

(** The states the component can be in, from any storage the browser
    holds when the page opens. *)
Inductive reachable : AppState * Storage -> Prop :=
  | reachable_initial (storage : Storage) :
      reachable (initialState, storage)
  | reachable_step (ev : Event) (s s' : AppState * Storage) :
      reachable s -> enabled ev s.1 = true -> step ev s = Some s' ->
      reachable s'.

(** The index designates a lesson whenever there is one, and there is none
    while the component is loading. *)
Definition wellIndexed (st : AppState) : Prop :=
  (loading st = true -> lessons st = [])
  /\ match lessons st with
     | [] => currentLessonIndex st = 0
     | _ :: _ => currentLessonIndex st < length (lessons st)
     end.

(** Result text and test result are not shown together. *)
Definition oneReport (st : AppState) : Prop :=
  testResult st <> None -> result st = "".

(** The storage holds the editor text under the key of the current lesson,
    or nothing while the editor holds the starter code. *)
Definition inSync (st : AppState) (storage : Storage) : Prop :=
  forall lesson,
    lessons st !! currentLessonIndex st = Some lesson ->
    storage !! codeKey (id lesson) = Some (code st)
    \/ (storage !! codeKey (id lesson) = None
        /\ code st = initialCode lesson).

(** ** The script of the first generation *)


(** ** Splitters *)

(** Pane widths are doubles. [num] stands for the doubles other than NaN
    with their order, and [None] for NaN. What an addition, subtraction,
    multiplication or division gives, NaN included, is the host's
    business; the record also names the constants the handlers use. *)
Record Doubles : Type := mkDoubles {
  num : Type;
  le : relation num;
  le_dec : RelDecision le;
  add : num -> num -> option num;
  sub : num -> num -> option num;
  mul : num -> num -> option num;
  div : num -> num -> option num;
  n2 : num;
  n5 : num;
  n15 : num;
  n45 : num;
  n100 : num
}.
#[global] Existing Instance le_dec.

Definition lift2 {D : Doubles} (f : num D -> num D -> option (num D))
    (a b : option (num D)) : option (num D) :=
  match a, b with
  | Some x, Some y => f x y
  | _, _ => None
  end.

(** [Math.max] and [Math.min]: NaN when an argument is NaN. *)
Definition mathMax {D : Doubles} (a b : option (num D)) : option (num D) :=
  lift2 (fun x y => Some (if decide (le D x y) then y else x)) a b.

Definition mathMin {D : Doubles} (a b : option (num D)) : option (num D) :=
  lift2 (fun x y => Some (if decide (le D x y) then x else y)) a b.

Inductive Which : Type := WhichLeft | WhichRight.

Record Widths (D : Doubles) : Type := mkWidths {
  lessonWidthPct : option (num D);
  previewWidthPct : option (num D)
}.
Arguments mkWidths {D} lessonWidthPct previewWidthPct.
Arguments lessonWidthPct {D} w.
Arguments previewWidthPct {D} w.

(** [onSplitterKeyDown(which)]: the widths after the key, and whether
    [preventDefault] was called. *)
Definition onSplitterKeyDown {D : Doubles} (which : Which)
    (e : KeyboardEvent) (w : Widths D) : Widths D * bool :=
  let step := Some (if shiftKey e then n5 D else n2 D) in
  if String.eqb (key e) "ArrowLeft" then
    (match which with
     | WhichLeft =>
         mkWidths (mathMax (Some (n15 D))
                           (lift2 (sub D) (lessonWidthPct w) step))
                  (previewWidthPct w)
     | WhichRight =>
         mkWidths (lessonWidthPct w)
                  (mathMin (Some (n45 D))
                           (lift2 (add D) (previewWidthPct w) step))
     end, true)
  else if String.eqb (key e) "ArrowRight" then
    (match which with
     | WhichLeft =>
         mkWidths (mathMin (Some (n45 D))
                           (lift2 (add D) (lessonWidthPct w) step))
                  (previewWidthPct w)
     | WhichRight =>
         mkWidths (lessonWidthPct w)
                  (mathMax (Some (n15 D))
                           (lift2 (sub D) (previewWidthPct w) step))
     end, true)
  else (w, false).

(** [onMove] of [startDrag]: the drag began at [startX], on a container
    [containerWidth] wide, with the widths [starting]; the pointer is at
    [clientX] and the widths are [w]. *)
Definition onMove {D : Doubles} (which : Which)
    (containerWidth startX : num D) (starting : Widths D)
    (clientX : num D) (w : Widths D) : Widths D :=
  let deltaPx := sub D clientX startX in
  let deltaPct :=
    lift2 (mul D) (lift2 (div D) deltaPx (Some containerWidth))
          (Some (n100 D)) in
  match which with
  | WhichLeft =>
      let next :=
        mathMin (Some (n45 D))
          (mathMax (Some (n15 D))
                   (lift2 (add D) (lessonWidthPct starting) deltaPct)) in
      mkWidths next (previewWidthPct w)
  | WhichRight =>
      let next :=
        mathMin (Some (n45 D))
          (mathMax (Some (n15 D))
                   (lift2 (sub D) (previewWidthPct starting) deltaPct)) in
      mkWidths (lessonWidthPct w) next
  end.

(** NaN, or a width between 15 and 45. *)
Definition clamped {D : Doubles} (x : option (num D)) : Prop :=
  match x with
  | None => True
  | Some v => le D (n15 D) v /\ le D v (n45 D)
  end.

(** A session on the lessons of the examples: the state once the lessons
    are fetched into an empty storage. *)
Module Demo.

Definition lessons2 : list Lesson :=
  [Mini.lessonWithTests; Mini.lessonValidated].

Definition fetched : FetchOutcome := Response true 200 (Some lessons2).

Definition loaded : AppState * Storage :=
  (mkApp lessons2 0 "// add here" "" None false None false,
   {[ codeKey "sum" := "// add here" ]}).

Definition glossary2 : list GlossaryItem :=
  [mkGlossaryItem "closure" "A function with its scope." None;
   mkGlossaryItem "hoisting" "Declarations move up." (Some "var x;")].

End Demo.

(** The integers as doubles, for the examples. *)
Definition integers : Doubles :=
  mkDoubles Z Z.le _
    (fun x y => Some (x + y)%Z) (fun x y => Some (x - y)%Z)
    (fun x y => Some (x * y)%Z)
    (fun x y => if (y =? 0)%Z then None else Some (x / y)%Z)
    2%Z 5%Z 15%Z 45%Z 100%Z.

(** * Facts *)

Section Harness.
Context {E : Engine}.
Implicit Types (w : World E) (e : Env E) (s : Script) (v : JsVal).

Lemma test_error_text_eq err w :
  test_error_text err w = (Normal (errorText err), w).
Proof.
  unfold test_error_text, bind, lift_completion, ret.
  destruct err as [| |b|n|str|nm msg]; simpl; try reflexivity.
  - by destruct b.
  - by destruct (negb (n =? 0)%Z) eqn:Hn; simpl; rewrite ?Hn.
  - by destruct (negb (String.eqb str "")) eqn:Hs; simpl; rewrite ?Hs.
  - by destruct (String.eqb msg "").
Qed.

(** One turn of the loop never throws and posts nothing. *)
Lemma run_test_eq (t : TestFn) (passCount : nat) (ds : list Detail) w :
  run_test t (passCount, ds) w =
    match call E (tf_body t) (env w) with
    | (Normal passed, e) =>
        (Normal (if truthy passed then passCount + 1 else passCount,
                 ds ++ [mkDetail (tf_name t) passed None]),
         mkWorld e (outbox w))
    | (Throw err, e) =>
        (Normal (passCount,
                 ds ++ [mkDetail (tf_name t) (Bool false)
                                 (Some (errorText err))]),
         mkWorld e (outbox w))
    end.
Proof.
  unfold run_test, try_catch, bind, call_fn, ret.
  destruct (call E (tf_body t) (env w)) as [[passed|err] e]; [done|].
  by rewrite test_error_text_eq.
Qed.

Lemma countPassed_app (xs ys : list Detail) :
  countPassed (xs ++ ys) = countPassed xs + countPassed ys.
Proof. unfold countPassed. by rewrite List.filter_app, length_app. Qed.

Lemma countPassed_le (ds : list Detail) : countPassed ds <= length ds.
Proof. unfold countPassed. apply List.filter_length_le. Qed.

Lemma run_tests_cons (t : TestFn) (rest : list TestFn)
      (acc : nat * list Detail) w :
  run_tests (t :: rest) acc w =
    match run_test t acc w with
    | (Normal acc', w') => run_tests rest acc' w'
    | (Throw v, w') => (Throw v, w')
    end.
Proof. reflexivity. Qed.

(** The loop: it ends normally, posts nothing, appends one entry per test
    in the order of the tests, and adds to [passCount] the number of new
    entries with a truthy [passed]. *)
Lemma run_tests_spec (tests : list TestFn) :
  forall (passCount : nat) (ds : list Detail) w,
  exists (new : list Detail) e,
    run_tests tests (passCount, ds) w
      = (Normal (passCount + countPassed new, ds ++ new),
         mkWorld e (outbox w))
    /\ d_name <$> new = tf_name <$> tests
    /\ Forall errorOnlyOnFailure new.
Proof.
  induction tests as [|t rest IH]; intros passCount ds w.
  - exists [], (env w). destruct w. simpl. unfold ret, countPassed. simpl.
    by rewrite Nat.add_0_r, app_nil_r.
  - rewrite run_tests_cons, run_test_eq.
    destruct (call E (tf_body t) (env w)) as [[passed|err] e1].
    + destruct (IH (if truthy passed then passCount + 1 else passCount)
                  (ds ++ [mkDetail (tf_name t) passed None])
                  (mkWorld e1 (outbox w)))
        as (new & e2 & Hrun & Hnames & Herr).
      exists (mkDetail (tf_name t) passed None :: new), e2.
      rewrite Hrun. simpl. split; [|split].
      * rewrite <- app_assoc. simpl. f_equal. f_equal. f_equal.
        unfold countPassed. simpl.
        destruct (truthy passed); simpl; lia.
      * f_equal. exact Hnames.
      * constructor; [|done]. intros [x Hx]. discriminate.
    + destruct (IH passCount
                  (ds ++ [mkDetail (tf_name t) (Bool false)
                                   (Some (errorText err))])
                  (mkWorld e1 (outbox w)))
        as (new & e2 & Hrun & Hnames & Herr).
      exists (mkDetail (tf_name t) (Bool false) (Some (errorText err))
                :: new), e2.
      rewrite Hrun. simpl. split; [|split].
      * by rewrite <- app_assoc.
      * f_equal. exact Hnames.
      * by constructor.
Qed.

(** When every assertion returns a truthy value, every test is counted. *)
Lemma run_tests_all_pass (tests : list TestFn) :
  forall (passCount : nat) (ds : list Detail) w,
  allPass E tests (env w) = true ->
  exists (new : list Detail) e,
    run_tests tests (passCount, ds) w
      = (Normal (passCount + length tests, ds ++ new),
         mkWorld e (outbox w))
    /\ length new = length tests
    /\ Forall (fun d => d_error d = None /\ truthy (d_passed d) = true) new.
Proof.
  induction tests as [|t rest IH]; intros passCount ds w Hall.
  - exists [], (env w). destruct w. simpl. unfold ret.
    by rewrite Nat.add_0_r, app_nil_r.
  - rewrite run_tests_cons, run_test_eq. simpl in Hall.
    destruct (call E (tf_body t) (env w)) as [[passed|err] e1]; [|done].
    apply andb_prop in Hall as [Hpassed Hrest]. rewrite Hpassed.
    destruct (IH (passCount + 1)
                 (ds ++ [mkDetail (tf_name t) passed None])
                 (mkWorld e1 (outbox w)) Hrest)
      as (new & e2 & Hrun & Hlen & Hnew).
    exists (mkDetail (tf_name t) passed None :: new), e2.
    rewrite Hrun. simpl. split; [|split].
    + rewrite <- app_assoc. simpl. do 3 f_equal. lia.
    + by rewrite Hlen.
    + by constructor.
Qed.

(** *** The script, case by case *)

(** What the outer [catch] does with the value it receives. *)
Lemma fullScript_user_throw s w v e :
  exec E (s_code s) (env w) = (Throw v, e) ->
  fullScript s w =
    match get_message v with
    | Normal m =>
        (Normal tt,
         mkWorld e (outbox w ++ [MsgResult ("Error: " +:+ toString m)]))
    | Throw t => (Throw t, mkWorld e (outbox w))
    end.
Proof.
  intros Hexec.
  unfold fullScript, try_catch, bind, run_code, lift_completion, postMessage.
  rewrite Hexec. by destruct (get_message v).
Qed.

Lemma fullScript_tests s w e :
  exec E (s_code s) (env w) = (Normal tt, e) ->
  s_hasTests s = true ->
  exists acc e',
    run_tests (s_tests s) (0, []) (mkWorld e (outbox w))
      = (Normal acc, mkWorld e' (outbox w))
    /\ fullScript s w =
         (Normal tt,
          mkWorld e' (outbox w ++
             [MsgTestResults
                (mkTestRunResult (fst acc) (length (s_tests s)) (snd acc))])).
Proof.
  intros Hexec Htests.
  destruct (run_tests_spec (s_tests s) 0 [] (mkWorld e (outbox w)))
    as (new & e' & Hrun & _).
  eexists _, e'. split; [exact Hrun|].
  unfold fullScript, try_catch, bind, run_code, postMessage.
  rewrite Hexec, Htests. simpl in *. by rewrite Hrun.
Qed.

Lemma fullScript_validation_returns s w e e' r :
  exec E (s_code s) (env w) = (Normal tt, e) ->
  s_hasTests s = false ->
  call E (s_validation s) e = (Normal r, e') ->
  fullScript s w =
    (Normal tt,
     mkWorld e' (outbox w ++
        [MsgResult (if truthy r then "Success! Correct!"
                    else "Keep trying! The validation failed.")])).
Proof.
  intros Hexec Htests Hcall.
  unfold fullScript, try_catch, bind, run_code, call_fn, postMessage.
  rewrite Hexec, Htests. simpl. by rewrite Hcall.
Qed.

Lemma fullScript_validation_throws s w e e' v :
  exec E (s_code s) (env w) = (Normal tt, e) ->
  s_hasTests s = false ->
  call E (s_validation s) e = (Throw v, e') ->
  fullScript s w =
    match get_message v with
    | Normal m =>
        (Normal tt,
         mkWorld e' (outbox w ++ [MsgResult ("Error: " +:+ toString m)]))
    | Throw t => (Throw t, mkWorld e' (outbox w))
    end.
Proof.
  intros Hexec Htests Hcall.
  unfold fullScript, try_catch, bind, run_code, call_fn, lift_completion,
    postMessage.
  rewrite Hexec, Htests. simpl. rewrite Hcall.
  by destruct (get_message v).
Qed.

Lemma posted_user_throw s e0 e1 v :
  exec E (s_code s) e0 = (Throw v, e1) ->
  posted s e0 =
    match get_message v with
    | Normal m => [MsgResult ("Error: " +:+ toString m)]
    | Throw _ => []
    end
  /\ escapes s e0 =
    match get_message v with
    | Normal _ => None
    | Throw t => Some t
    end.
Proof.
  intros Hexec. unfold posted, escapes.
  rewrite (fullScript_user_throw s (mkWorld e0 []) v e1 Hexec).
  by destruct (get_message v).
Qed.

(** A [testResults] message in the outbox comes from the loop. *)
Lemma posted_testResults_inv s e0 (p : TestRunResult) :
  MsgTestResults p ∈ posted s e0 ->
  s_hasTests s = true
  /\ fst (exec E (s_code s) e0) = Normal tt
  /\ posted s e0 = [MsgTestResults p]
  /\ totalCount p = length (s_tests s)
  /\ passCount p = countPassed (details p)
  /\ d_name <$> details p = tf_name <$> s_tests s
  /\ Forall errorOnlyOnFailure (details p).
Proof.
  intros Hin.
  destruct (exec E (s_code s) e0) as [[[]|v] e1] eqn:Hexec.
  - destruct (s_hasTests s) eqn:Htests.
    + destruct (run_tests_spec (s_tests s) 0 [] (mkWorld e1 []))
        as (new & e' & Hrun & Hnames & Herr).
      assert (Hposted : posted s e0 =
                [MsgTestResults
                   (mkTestRunResult (countPassed new)
                                    (length (s_tests s)) new)]).
      { unfold posted, fullScript, try_catch, bind, run_code, postMessage.
        simpl. rewrite Hexec, Htests. simpl in *. by rewrite Hrun. }
      rewrite Hposted in Hin. apply list_elem_of_singleton in Hin.
      injection Hin as ->. by rewrite Hposted.
    + exfalso. unfold posted in Hin.
      destruct (call E (s_validation s) e1) as [[r|v] e2] eqn:Hcall.
      * rewrite (fullScript_validation_returns s (mkWorld e0 []) e1 e2 r)
          in Hin by done.
        simpl in Hin. apply list_elem_of_singleton in Hin. discriminate.
      * rewrite (fullScript_validation_throws s (mkWorld e0 []) e1 e2 v)
          in Hin by done.
        destruct (get_message v); simpl in Hin.
        -- apply list_elem_of_singleton in Hin. discriminate.
        -- by apply not_elem_of_nil in Hin.
  - exfalso. destruct (posted_user_throw s e0 e1 v Hexec) as [Hp _].
    rewrite Hp in Hin. destruct (get_message v).
    + apply list_elem_of_singleton in Hin. discriminate.
    + by apply not_elem_of_nil in Hin.
Qed.


End Harness.

(** ** The run/report flow *)

Section RunAndReport.
Context {E : Engine}.
Implicit Types (e : Env E) (v : JsVal).

Lemma handleRunCode_script (st : AppState) (lesson : Lesson) :
  lessons st !! currentLessonIndex st = Some lesson ->
  handleRunCode true st = Some (PostedScript (buildScript lesson (code st))).
Proof. intros Hl. unfold handleRunCode. by rewrite Hl. Qed.

Lemma hasTests_true (lesson : Lesson) (ts : list TestCase) :
  tests lesson = Some ts -> ts <> [] -> hasTests lesson = true.
Proof. unfold hasTests. intros -> Hne. by destruct ts. Qed.

(** C1. A lesson with a non-empty list of tests, every assertion
    returning a truthy value in the environment the editor text left:
    every [testResults] payload that the script of [handleRunCode] posts
    has [passCount] equal to [totalCount], which is the number of tests of
    the lesson; and when the editor text does not throw, such a payload is
    the one message posted. *)
Theorem all_tests_passing_reports_full_count
    (st : AppState) (lesson : Lesson) (ts : list TestCase) e0 :
  lessons st !! currentLessonIndex st = Some lesson ->
  tests lesson = Some ts ->
  ts <> [] ->
  allPass E (testFn <$> ts) (snd (exec E (code st) e0)) = true ->
  exists s,
    handleRunCode true st = Some (PostedScript s)
    /\ (forall p, MsgTestResults p ∈ posted s e0 ->
          passCount p = totalCount p /\ totalCount p = length ts)
    /\ (fst (exec E (code st) e0) = Normal tt ->
          exists p, posted s e0 = [MsgTestResults p]).
Proof.
  intros Hlesson Hts Hne Hall.
  pose proof (hasTests_true lesson ts Hts Hne) as Hhas.
  assert (Hlit : testsArrayLiteral lesson = testFn <$> ts).
  { unfold testsArrayLiteral. by rewrite Hhas, Hts. }
  exists (buildScript lesson (code st)).
  split; [by apply handleRunCode_script|].
  destruct (exec E (code st) e0) as [[[]|v] e1] eqn:Hexec; simpl in Hall.
  - destruct (run_tests_all_pass (testFn <$> ts) 0 [] (mkWorld e1 []) Hall)
      as (new & e' & Hrun & Hlen & _).
    assert (Hposted : posted (buildScript lesson (code st)) e0 =
              [MsgTestResults
                 (mkTestRunResult (length (testFn <$> ts))
                                  (length (testFn <$> ts)) new)]).
    { unfold posted, fullScript, try_catch, bind, run_code, postMessage.
      simpl. rewrite Hexec, Hhas, Hlit. simpl in *. by rewrite Hrun. }
    split; [|by eexists].
    intros p Hin. rewrite Hposted in Hin.
    apply list_elem_of_singleton in Hin. injection Hin as ->. simpl.
    by rewrite length_fmap.
  - split; [|done].
    intros p Hin. apply posted_testResults_inv in Hin as (_ & Hfst & _).
    simpl in Hfst. by rewrite Hexec in Hfst.
Qed.

(** C2. What the outer catch makes of a value thrown by the editor text.
    [undefined] and [null] make the handler itself throw: nothing is
    posted and a [TypeError] leaves the script. A thrown string, number or
    boolean is reported as [Error: undefined], without the thrown text.
    Only an error object has its message reported. *)
Theorem outer_catch_report (lesson : Lesson) (text : string) e0 e1 v :
  exec E text e0 = (Throw v, e1) ->
  let s := buildScript lesson text in
  match v with
  | Undefined | Null => posted s e0 = [] /\ is_Some (escapes s e0)
  | Bool _ | Num _ | Str _ =>
      posted s e0 = [MsgResult "Error: undefined"] /\ escapes s e0 = None
  | ErrorObj _ message =>
      posted s e0 = [MsgResult ("Error: " +:+ message)]
      /\ escapes s e0 = None
  end.
Proof.
  intros Hexec s.
  destruct (posted_user_throw s e0 e1 v Hexec) as [Hp Hesc].
  rewrite Hp, Hesc. by destruct v; simpl.
Qed.


(** C3. When [undefined] or [null] reaches the outer catch, thrown by the
    editor text or by the single validation, the run posts no message at
    all and ends with a throw. *)
Theorem nullish_throw_posts_nothing (s : Script) e0 v :
  caught s e0 = Some v ->
  nullish v = true ->
  posted s e0 = [] /\ is_Some (escapes s e0).
Proof.
  unfold caught. intros Hcaught Hnull.
  destruct (exec E (s_code s) e0) as [[[]|u] e1] eqn:Hexec.
  - destruct (s_hasTests s) eqn:Htests; [done|].
    destruct (call E (s_validation s) e1) as [[r|u] e2] eqn:Hcall; [done|].
    injection Hcaught as ->. unfold posted, escapes.
    rewrite (fullScript_validation_throws s (mkWorld e0 []) e1 e2 v)
      by done.
    by destruct v.
  - injection Hcaught as ->.
    destruct (posted_user_throw s e0 e1 v Hexec) as [-> ->].
    by destruct v.
Qed.

(** When the assertions return booleans, as [TestCase] asks of them, a
    truthy [passed] is [true] itself. *)
Lemma countPassed_booleans (ds : list Detail) :
  Forall (fun d => exists b, d_passed d = Bool b) ds ->
  countPassed ds
    = length (List.filter (fun d => bool_decide (d_passed d = Bool true)) ds).
Proof.
  unfold countPassed. induction 1 as [|d ds [b Hb] _ IH]; [done|].
  simpl. rewrite Hb. destruct b; simpl; by rewrite IH.
Qed.

(** C9. Every [testResults] payload that a script built by
    [handleRunCode] posts has one entry per test of the lesson, in the
    order of the lesson, [totalCount] entries in all; [passCount] is the
    number of entries whose [passed] is truthy, which is the number of
    entries with [passed: true] when the entries hold booleans, and lies
    between 0 and [totalCount]; an entry with an [error] has
    [passed: false]. *)
Theorem testResults_payload_invariant
    (lesson : Lesson) (text : string) e0 (p : TestRunResult) :
  MsgTestResults p ∈ posted (buildScript lesson text) e0 ->
  length (details p) = totalCount p
  /\ d_name <$> details p = name <$> default [] (tests lesson)
  /\ passCount p = countPassed (details p)
  /\ (Forall (fun d => exists b, d_passed d = Bool b) (details p) ->
      passCount p
        = length (List.filter
                    (fun d => bool_decide (d_passed d = Bool true))
                    (details p)))
  /\ 0 <= passCount p <= totalCount p
  /\ Forall errorOnlyOnFailure (details p).
Proof.
  intros Hin.
  destruct (posted_testResults_inv _ _ _ Hin)
    as (Hhas & _ & _ & Htotal & Hpass & Hnames & Herr).
  simpl in *.
  assert (Hlen : length (details p) = totalCount p).
  { rewrite Htotal, <- (length_fmap d_name), Hnames. by rewrite length_fmap. }
  split; [done|]. split.
  { rewrite Hnames. unfold testsArrayLiteral. rewrite Hhas.
    rewrite <- list_fmap_compose. done. }
  split; [done|]. split.
  { intros Hbool. rewrite Hpass. by apply countPassed_booleans. }
  split; [|done].
  rewrite Hpass, <- Hlen. split; [lia|apply countPassed_le].
Qed.

(** C10. A lesson with no test to run and no validation: the script calls
    [function() { return false; }] in its place. Editor text that does not
    throw gets the failure message, and no run of such a lesson posts the
    success message. *)
Theorem lesson_without_checks_never_succeeds
    (lesson : Lesson) (text : string) e0 :
  hasTests lesson = false ->
  validation lesson = None ->
  (forall e, fst (call E "return false;" e) = Normal (Bool false)) ->
  let s := buildScript lesson text in
  (fst (exec E text e0) = Normal tt ->
   posted s e0 = [MsgResult "Keep trying! The validation failed."])
  /\ MsgResult "Success! Correct!" ∉ posted s e0.
Proof.
  intros Hhas Hval Hfalse s.
  assert (Hs : s = mkScript text false [] "return false;").
  { unfold s, buildScript, testsArrayLiteral. by rewrite Hhas, Hval. }
  destruct (exec E text e0) as [[[]|v] e1] eqn:Hexec.
  - specialize (Hfalse e1).
    destruct (call E "return false;" e1) as [c e2] eqn:Hcall.
    simpl in Hfalse. subst c.
    assert (Hp : posted s e0
                 = [MsgResult "Keep trying! The validation failed."]).
    { unfold posted.
      by rewrite (fullScript_validation_returns s (mkWorld e0 []) e1 e2
                    (Bool false)) by (by rewrite Hs). }
    split; [done|]. rewrite Hp.
    intros Hin. apply list_elem_of_singleton in Hin. discriminate.
  - split; [done|].
    destruct (posted_user_throw s e0 e1 v) as [Hp _];
      [by rewrite Hs|].
    rewrite Hp. destruct (get_message v).
    + intros Hin. apply list_elem_of_singleton in Hin. discriminate.
    + apply not_elem_of_nil.
Qed.

End RunAndReport.

(** ** The view state *)

Section ViewState.
Implicit Types (st : AppState) (storage : Storage) (lesson : Lesson).

Lemma codeKey_inj (a b : string) : codeKey a = codeKey b -> a = b.
Proof. unfold codeKey. cbn. intros Heq. by simplify_eq. Qed.

Lemma lookup_nonempty st lesson :
  lessons st !! currentLessonIndex st = Some lesson ->
  (0 <? length (lessons st))%nat = true.
Proof.
  intros Hl. apply lookup_lt_Some in Hl. apply Nat.ltb_lt. lia.
Qed.

(** C4. With a current lesson, [handleResetCode] removes the entry stored
    under the lesson's key, puts the lesson's [initialCode] in the editor,
    sets the result text to [Code has been reset.] and clears the test
    result. Every other key of the storage keeps its value, the keys of
    lessons with another identifier among them. *)
Theorem handleResetCode_resets st storage lesson :
  lessons st !! currentLessonIndex st = Some lesson ->
  exists st' storage',
    handleResetCode st storage = Some (st', storage')
    /\ storage' !! codeKey (id lesson) = None
    /\ code st' = initialCode lesson
    /\ result st' = "Code has been reset."
    /\ testResult st' = None
    /\ (forall k, k <> codeKey (id lesson) -> storage' !! k = storage !! k)
    /\ (forall other, id other <> id lesson ->
          storage' !! codeKey (id other) = storage !! codeKey (id other)).
Proof.
  intros Hl. unfold handleResetCode.
  rewrite (lookup_nonempty st lesson Hl), Hl. simpl.
  eexists _, _. split; [done|].
  split; [apply lookup_delete_eq|].
  do 3 (split; [done|]). split.
  - intros k Hk. by apply lookup_delete_ne.
  - intros other Hid. apply lookup_delete_ne.
    intros Heq. by apply codeKey_inj in Heq.
Qed.

(** The render after a reset has a new [code] unless the editor already
    held the starter code, so the saving effect runs and stores the starter
    code under the key just removed. *)
Lemma reset_then_save st storage lesson st' storage' :
  lessons st !! currentLessonIndex st = Some lesson ->
  handleResetCode st storage = Some (st', storage') ->
  code st <> initialCode lesson ->
  runEffects st st' storage'
    = Some (st', <[codeKey (id lesson) := initialCode lesson]> storage').
Proof.
  intros Hl Hreset Hne. unfold handleResetCode in Hreset.
  rewrite (lookup_nonempty st lesson Hl), Hl in Hreset. simpl in Hreset.
  injection Hreset as <- <-.
  unfold runEffects, loadDeps, saveDeps. simpl.
  repeat case_bool_decide; try congruence. simpl.
  unfold saveCodeEffect. simpl.
  by rewrite (lookup_nonempty st lesson Hl), Hl.
Qed.

Lemma savedOrInitial_cases (saved : option string) (initial : string) :
  (forall s, saved = Some s -> s <> "" -> savedOrInitial saved initial = s)
  /\ (saved = Some "" -> savedOrInitial saved initial = initial)
  /\ (saved = None -> savedOrInitial saved initial = initial).
Proof.
  split; [|split].
  - intros s -> Hne. simpl.
    destruct (String.eqb s "") eqn:Heq; [|done].
    by apply String.eqb_eq in Heq.
  - by intros ->.
  - by intros ->.
Qed.

(** C5, as the code has it. Selecting lesson [i] makes the loading effect
    put in the editor the text stored under the lesson's key when there is
    one and it is not empty, and the lesson's [initialCode] when nothing is
    stored or the stored text is empty. *)
Theorem select_loads_saved_or_initial st storage (i : nat) lesson :
  lessons st !! i = Some lesson ->
  exists st',
    loadCodeEffect (handleLessonSelect i st) storage = Some st'
    /\ currentLessonIndex st' = i
    /\ (forall s, storage !! codeKey (id lesson) = Some s -> s <> "" ->
          code st' = s)
    /\ (storage !! codeKey (id lesson) = Some "" ->
          code st' = initialCode lesson)
    /\ (storage !! codeKey (id lesson) = None ->
          code st' = initialCode lesson).
Proof.
  intros Hl. unfold loadCodeEffect.
  rewrite (lookup_nonempty (handleLessonSelect i st) lesson) by done.
  simpl. rewrite Hl. simpl. eexists. split; [done|]. split; [done|]. simpl.
  apply savedOrInitial_cases.
Qed.

(** The renders that follow a change of lesson. The first runs both
    effects: the loading one reads the storage, then the saving one writes
    the text of the lesson just left under the new lesson's key. The second
    render has the loaded text and saves it. *)
Lemma select_then_settle st storage (i : nat) lesson :
  lessons st !! i = Some lesson ->
  i <> currentLessonIndex st ->
  let cur := handleLessonSelect i st in
  let loaded :=
    savedOrInitial (storage !! codeKey (id lesson)) (initialCode lesson) in
  runEffects st cur storage
    = Some (setCode loaded cur, <[codeKey (id lesson) := code st]> storage)
  /\ settle 2 st cur storage
    = Some (setCode loaded cur, <[codeKey (id lesson) := loaded]> storage).
Proof.
  intros Hl Hi cur loaded.
  assert (Hne : (0 <? length (lessons st))%nat = true).
  { apply lookup_lt_Some in Hl. apply Nat.ltb_lt. lia. }
  assert (Hfirst : runEffects st cur storage
    = Some (setCode loaded cur, <[codeKey (id lesson) := code st]> storage)).
  { unfold runEffects, loadDeps, saveDeps. simpl.
    repeat case_bool_decide; try congruence.
    unfold loadCodeEffect, saveCodeEffect. simpl.
    by rewrite Hne, Hl. }
  split; [done|].
  unfold settle. rewrite Hfirst. simpl.
  destruct (decide (loaded = code st)) as [Heq|Hneq].
  - rewrite bool_decide_eq_true_2.
    + by rewrite Heq.
    + unfold setCode, cur. simpl. by rewrite Heq.
  - rewrite bool_decide_eq_false_2.
    2:{ intros Heq. apply Hneq. by apply (f_equal code) in Heq. }
    unfold runEffects, loadDeps, saveDeps. simpl.
    repeat case_bool_decide; try congruence.
    unfold saveCodeEffect. simpl. rewrite Hne, Hl. simpl.
    rewrite bool_decide_eq_true_2 by done.
    by rewrite insert_insert_eq.
Qed.

(** C6. The listener applies a [result] or [testResults] payload to the
    state it finds, whatever the lesson on display: the lesson index, the
    lesson list and the editor are not looked at and not changed. In
    particular a payload that arrives after another lesson was selected is
    shown for that lesson. *)
Theorem handleMessage_applies_unconditionally
    st (text : string) (p : TestRunResult) (i : nat) :
  (result (handleMessage (Some (DataResult text)) st) = text
   /\ testResult (handleMessage (Some (DataResult text)) st) = None
   /\ handleMessage (Some (DataResult text)) st
        = setResult text (setTestResult None st))
  /\ (result (handleMessage (Some (DataTestResults (Some p))) st) = ""
      /\ testResult (handleMessage (Some (DataTestResults (Some p))) st)
           = Some p
      /\ handleMessage (Some (DataTestResults (Some p))) st
           = setTestResult (Some p) (setResult "" st))
  /\ (let st' := handleMessage (Some (DataResult text))
                               (handleLessonSelect i st) in
      currentLessonIndex st' = i /\ result st' = text
      /\ code st' = code st /\ lessons st' = lessons st)
  /\ (let st' := handleMessage (Some (DataTestResults (Some p)))
                               (handleLessonSelect i st) in
      currentLessonIndex st' = i /\ testResult st' = Some p
      /\ code st' = code st /\ lessons st' = lessons st).
Proof. repeat split. Qed.

(** C7. After a failed fetch (the request rejected, a status that is not
    ok, or a body that does not parse) the component renders the error
    pane with the fixed text; after a fetch that brings an empty list it
    renders [No lessons found.]. Neither is a lesson view. *)
Theorem fetch_failure_and_empty_list_render_status
    st (status : nat) (json : option (list Lesson)) :
  errorShown (error st) = None ->
  render (fetchLessonsEffect NetworkError st)
    = Some (StatusPane "status-pane error-pane" fetchErrorText)
  /\ render (fetchLessonsEffect (Response false status json) st)
    = Some (StatusPane "status-pane error-pane" fetchErrorText)
  /\ render (fetchLessonsEffect (Response true status None) st)
    = Some (StatusPane "status-pane error-pane" fetchErrorText)
  /\ render (fetchLessonsEffect (Response true status (Some [])) st)
    = Some (StatusPane "status-pane" "No lessons found.").
Proof.
  intros Herr. repeat split; try reflexivity.
  unfold render, fetchLessonsEffect. simpl. by rewrite Herr.
Qed.

(** C8, as the code has it. A click on the hint button flips the
    visibility, so a second click brings the first state back and never
    leaves the state the first click reached. *)
Theorem clickHint_involutive st :
  showHint (clickHint st) = negb (showHint st)
  /\ clickHint (clickHint st) = st
  /\ clickHint (clickHint st) <> clickHint st.
Proof.
  unfold clickHint, hintOnClick, setShowHint. destruct st as [? ? ? ? ? ? ? h].
  simpl. split; [done|]. split.
  - by rewrite negb_involutive.
  - intros [= Heq]. by destruct h.
Qed.

(** The handler of one render, invoked again before the next render, sets
    the same value again. *)
Lemma hintOnClick_same_render (rendered : AppState) st :
  hintOnClick rendered (hintOnClick rendered st) = hintOnClick rendered st.
Proof. reflexivity. Qed.

(** On the state they share, the handlers of the first generation do what
    the later ones do. *)
Lemma legacy_handleResetCode st storage :
  Legacy.handleResetCode (forgetTests st) storage
    = prod_map forgetTests (fun x => x) <$> handleResetCode st storage.
Proof.
  unfold Legacy.handleResetCode, handleResetCode. simpl.
  destruct (0 <? length (lessons st))%nat; [|done].
  by destruct (lessons st !! currentLessonIndex st).
Qed.

Lemma legacy_loadCodeEffect st storage :
  Legacy.loadCodeEffect (forgetTests st) storage
    = forgetTests <$> loadCodeEffect st storage.
Proof.
  unfold Legacy.loadCodeEffect, loadCodeEffect. simpl.
  destruct (0 <? length (lessons st))%nat; [|done].
  by destruct (lessons st !! currentLessonIndex st).
Qed.

Lemma legacy_clickHint st :
  Legacy.clickHint (forgetTests st) = forgetTests (clickHint st).
Proof. reflexivity. Qed.

(** The navigation handlers keep the index inside a non-empty list. *)
Lemma goToNextLesson_in_range st :
  currentLessonIndex st < length (lessons st) ->
  currentLessonIndex (goToNextLesson st) < length (lessons (goToNextLesson st)).
Proof.
  intros Hlt. unfold goToNextLesson.
  destruct (Z.ltb_spec (Z.of_nat (currentLessonIndex st))
              (Z.of_nat (length (lessons st)) - 1)); simpl; lia.
Qed.

Lemma goToPreviousLesson_in_range st :
  currentLessonIndex st < length (lessons st) ->
  currentLessonIndex (goToPreviousLesson st)
    < length (lessons (goToPreviousLesson st)).
Proof.
  intros Hlt. unfold goToPreviousLesson.
  destruct (0 <? currentLessonIndex st)%nat; simpl; lia.
Qed.

End ViewState.

(** ** The theorems at concrete lessons *)

(** Two tests that return [true] and [1]: both counted. *)
Lemma all_tests_passing_witness :
  exists s,
    handleRunCode true (Mini.app [Mini.lessonWithTests] 0 "let a = 1")
      = Some (PostedScript s)
    /\ (forall p, MsgTestResults p ∈ posted (E:=Mini.engine) s 0%nat ->
          passCount p = totalCount p /\ totalCount p = 2)
    /\ (fst (Mini.exec "let a = 1" 0) = Normal tt ->
          exists p, posted (E:=Mini.engine) s 0%nat = [MsgTestResults p]).
Proof.
  apply (all_tests_passing_reports_full_count (E:=Mini.engine)
           (Mini.app [Mini.lessonWithTests] 0 "let a = 1")
           Mini.lessonWithTests
           [mkTestCase "adds" "return true;";
            mkTestCase "is a number" "return 1;"]
           0%nat);
    [reflexivity | reflexivity | discriminate | reflexivity].
Defined.

(** [throw null] in the editor: nothing posted, the script ends by a throw. *)
Lemma outer_catch_report_witness :
  Mini.exec "throw null" 0 = (Throw Null, 1)
  /\ posted (E:=Mini.engine) (buildScript Mini.lessonValidated "throw null")
            0%nat = []
  /\ is_Some (escapes (E:=Mini.engine)
                (buildScript Mini.lessonValidated "throw null") 0%nat).
Proof.
  split; [reflexivity|].
  apply (outer_catch_report (E:=Mini.engine) Mini.lessonValidated
           "throw null" 0%nat 1%nat Null).
  reflexivity.
Defined.

(** [throw 'boom'] in the editor: the report does not have the text. *)
Example outer_catch_string :
  posted (E:=Mini.engine) (buildScript Mini.lessonValidated "throw 'boom'")
         0%nat = [MsgResult "Error: undefined"].
Proof. reflexivity. Qed.

(** A validation that throws [null]: nothing posted. *)
Lemma nullish_throw_posts_nothing_witness :
  caught (E:=Mini.engine) (buildScript Mini.lessonThrowing "let a = 1") 0%nat
    = Some Null
  /\ posted (E:=Mini.engine) (buildScript Mini.lessonThrowing "let a = 1")
            0%nat = []
  /\ is_Some (escapes (E:=Mini.engine)
                (buildScript Mini.lessonThrowing "let a = 1") 0%nat).
Proof.
  split; [reflexivity|].
  apply (nullish_throw_posts_nothing (E:=Mini.engine)
           (buildScript Mini.lessonThrowing "let a = 1") 0%nat Null);
    reflexivity.
Defined.

Lemma handleResetCode_resets_witness :
  exists st' storage',
    handleResetCode (Mini.app [Mini.lessonWithTests; Mini.lessonValidated]
                       1 "let x = 5")
                    {[ codeKey "val" := "let x = 5"; codeKey "sum" := "a" ]}
      = Some (st', storage')
    /\ storage' !! codeKey "val" = None
    /\ code st' = "let x = 1"
    /\ result st' = "Code has been reset."
    /\ testResult st' = None
    /\ (forall k, k <> codeKey "val" ->
          storage' !! k
            = ({[ codeKey "val" := "let x = 5"; codeKey "sum" := "a" ]}
                 : Storage) !! k)
    /\ (forall other, id other <> "val" ->
          storage' !! codeKey (id other)
            = ({[ codeKey "val" := "let x = 5"; codeKey "sum" := "a" ]}
                 : Storage) !! codeKey (id other)).
Proof.
  apply (handleResetCode_resets
           (Mini.app [Mini.lessonWithTests; Mini.lessonValidated]
              1 "let x = 5")
           {[ codeKey "val" := "let x = 5"; codeKey "sum" := "a" ]}
           Mini.lessonValidated).
  reflexivity.
Defined.

(** C5 as claimed fails on an entry that holds the empty string: the entry
    exists, and the editor gets the starter code instead of it. *)
Lemma select_ignores_empty_saved_code :
  let st := Mini.app [Mini.lessonWithTests; Mini.lessonValidated] 0 "a" in
  let storage : Storage := {[ codeKey "val" := "" ]} in
  lessons st !! 1%nat = Some Mini.lessonValidated
  /\ storage !! codeKey (id Mini.lessonValidated) = Some ""
  /\ code <$> loadCodeEffect (handleLessonSelect 1 st) storage
       = Some "let x = 1"
  /\ code <$> loadCodeEffect (handleLessonSelect 1 st) storage
       <> storage !! codeKey (id Mini.lessonValidated).
Proof. repeat split. discriminate. Qed.

Lemma select_loads_saved_or_initial_witness :
  exists st',
    loadCodeEffect
      (handleLessonSelect 1
         (Mini.app [Mini.lessonWithTests; Mini.lessonValidated] 0 "a"))
      {[ codeKey "val" := "let x = 7" ]} = Some st'
    /\ currentLessonIndex st' = 1
    /\ (forall s, ({[ codeKey "val" := "let x = 7" ]} : Storage)
                    !! codeKey "val" = Some s -> s <> "" -> code st' = s)
    /\ (({[ codeKey "val" := "let x = 7" ]} : Storage) !! codeKey "val"
          = Some "" -> code st' = "let x = 1")
    /\ (({[ codeKey "val" := "let x = 7" ]} : Storage) !! codeKey "val"
          = None -> code st' = "let x = 1").
Proof.
  apply (select_loads_saved_or_initial
           (Mini.app [Mini.lessonWithTests; Mini.lessonValidated] 0 "a")
           {[ codeKey "val" := "let x = 7" ]} 1 Mini.lessonValidated).
  reflexivity.
Defined.

Lemma fetch_failure_and_empty_list_witness :
  render (fetchLessonsEffect NetworkError initialState)
    = Some (StatusPane "status-pane error-pane" fetchErrorText)
  /\ render (fetchLessonsEffect (Response false 404 None) initialState)
    = Some (StatusPane "status-pane error-pane" fetchErrorText)
  /\ render (fetchLessonsEffect (Response true 404 None) initialState)
    = Some (StatusPane "status-pane error-pane" fetchErrorText)
  /\ render (fetchLessonsEffect (Response true 404 (Some [])) initialState)
    = Some (StatusPane "status-pane" "No lessons found.").
Proof.
  apply (fetch_failure_and_empty_list_render_status initialState 404 None).
  reflexivity.
Defined.

(** C8 as claimed fails: the second click undoes the first. *)
Lemma clickHint_not_idempotent :
  clickHint (clickHint initialState) <> clickHint initialState.
Proof. discriminate. Qed.

(** Four tests: one passes, one returns [false], two throw. *)
Lemma testResults_payload_invariant_witness :
  let p :=
    mkTestRunResult 1 4
      [mkDetail "ok" (Bool true) None;
       mkDetail "bad" (Bool false) None;
       mkDetail "throws" (Bool false) (Some "nope");
       mkDetail "null" (Bool false) (Some "null")] in
  length (details p) = totalCount p
  /\ d_name <$> details p = name <$> default [] (tests Mini.lessonMixed)
  /\ passCount p = countPassed (details p)
  /\ (Forall (fun d => exists b, d_passed d = Bool b) (details p) ->
      passCount p
        = length (List.filter (fun d => bool_decide (d_passed d = Bool true))
                              (details p)))
  /\ 0 <= passCount p <= totalCount p
  /\ Forall errorOnlyOnFailure (details p).
Proof.
  intros p.
  apply (testResults_payload_invariant (E:=Mini.engine) Mini.lessonMixed
           "let a = 1" 0%nat p).
  apply list_elem_of_singleton. reflexivity.
Defined.

Lemma lesson_without_checks_witness :
  let s := buildScript Mini.lessonBare "let a = 1" in
  (fst (Mini.exec "let a = 1" 0) = Normal tt ->
   posted (E:=Mini.engine) s 0%nat
     = [MsgResult "Keep trying! The validation failed."])
  /\ MsgResult "Success! Correct!" ∉ posted (E:=Mini.engine) s 0%nat.
Proof.
  apply (lesson_without_checks_never_succeeds (E:=Mini.engine)
           Mini.lessonBare "let a = 1" 0%nat);
    [reflexivity | reflexivity | intros e; reflexivity].
Defined.

(** A report that arrives late: lesson 1 was run, the user went back to
    lesson 0, and the message shows there. *)
Example stale_result_is_shown :
  let st :=
    Mini.app [Mini.lessonWithTests; Mini.lessonValidated] 1 "let x = 1" in
  exists s m,
    handleRunCode true st = Some (PostedScript s)
    /\ posted (E:=Mini.engine) s 0%nat = [m]
    /\ (let st' := handleMessage (Some (deliver m)) (goToPreviousLesson st) in
        currentLessonIndex st' = 0 /\ result st' = "Success! Correct!").
Proof. eexists _, _. repeat split. Qed.

(** * The rest of the component: facts *)

(** ** Renders and effects after a handler *)

Section Settling.
Implicit Types (st prev cur : AppState) (storage : Storage) (lesson : Lesson).

Lemma settle_empty prev cur storage :
  lessons cur = [] -> settle 2 prev cur storage = Some (cur, storage).
Proof.
  intros Hnil.
  assert (Hrun : runEffects prev cur storage = Some (cur, storage)).
  { unfold runEffects, loadCodeEffect, saveCodeEffect. rewrite Hnil. simpl.
    by repeat case_bool_decide. }
  unfold settle. rewrite Hrun. simpl.
  by rewrite bool_decide_eq_true_2.
Qed.

(** With a current lesson, two renders settle the state: a change of lesson
    or of lesson list loads the text of the lesson and stores it; a change
    of the editor text alone stores the new text; nothing else runs an
    effect. *)
Lemma settle_lesson prev cur storage lesson :
  lessons cur !! currentLessonIndex cur = Some lesson ->
  let loaded :=
    savedOrInitial (storage !! codeKey (id lesson)) (initialCode lesson) in
  settle 2 prev cur storage =
    Some (if bool_decide (loadDeps prev = loadDeps cur) then
            if bool_decide (saveDeps prev = saveDeps cur)
            then (cur, storage)
            else (cur, <[codeKey (id lesson) := code cur]> storage)
          else (setCode loaded cur,
                <[codeKey (id lesson) := loaded]> storage)).
Proof.
  intros Hl loaded.
  assert (Hne : (0 <? length (lessons cur))%nat = true).
  { apply lookup_lt_Some in Hl. apply Nat.ltb_lt. lia. }
  assert (Hsave : forall st, lessons st = lessons cur ->
            currentLessonIndex st = currentLessonIndex cur ->
            saveCodeEffect st storage
              = Some (<[codeKey (id lesson) := code st]> storage)).
  { intros st Hls Hidx. unfold saveCodeEffect. by rewrite Hls, Hidx, Hne, Hl. }
  assert (Hload : loadCodeEffect cur storage = Some (setCode loaded cur)).
  { unfold loadCodeEffect. by rewrite Hne, Hl. }
  unfold settle, runEffects.
  destruct (bool_decide (loadDeps prev = loadDeps cur)) eqn:Hld.
  - apply bool_decide_eq_true_1 in Hld.
    destruct (bool_decide (saveDeps prev = saveDeps cur)) eqn:Hsd; simpl.
    + by rewrite bool_decide_eq_true_2.
    + rewrite (Hsave cur) by done. simpl. by rewrite bool_decide_eq_true_2.
  - apply bool_decide_eq_false_1 in Hld.
    rewrite Hload. simpl.
    rewrite (bool_decide_eq_false_2 (saveDeps prev = saveDeps cur)).
    2:{ intros Heq. apply Hld. unfold saveDeps, loadDeps in *. congruence. }
    rewrite (Hsave cur) by done. simpl.
    destruct (decide (loaded = code cur)) as [Heq|Hneq].
    + rewrite bool_decide_eq_true_2.
      * rewrite Heq. by destruct cur.
      * rewrite Heq. by destruct cur.
    + rewrite bool_decide_eq_false_2.
      2:{ intros Heq. apply Hneq. by apply (f_equal code) in Heq. }
      rewrite (bool_decide_eq_true_2 (loadDeps cur = _)) by done. simpl.
      rewrite (bool_decide_eq_false_2 (saveDeps cur = _)).
      2:{ unfold saveDeps. simpl. congruence. }
      unfold saveCodeEffect. simpl. rewrite Hne, Hl. simpl.
      rewrite bool_decide_eq_true_2 by done.
      by rewrite insert_insert_eq.
Qed.

End Settling.

(** ** Invariants of the component *)

Section Machine.
Implicit Types (st prev cur : AppState) (storage : Storage) (lesson : Lesson).

Lemma wellIndexed_lookup st :
  wellIndexed st ->
  lessons st = []
  \/ exists lesson, lessons st !! currentLessonIndex st = Some lesson.
Proof.
  intros [_ Hidx]. destruct (lessons st) as [|l ls] eqn:Hls; [by left|].
  right. apply lookup_lt_is_Some_2 in Hidx. destruct Hidx as [lesson Hl].
  by exists lesson.
Qed.

Lemma setCode_same st : setCode (code st) st = st.
Proof. by destruct st. Qed.

Lemma settle_total prev cur storage :
  wellIndexed cur ->
  exists text storage',
    settle 2 prev cur storage = Some (setCode text cur, storage').
Proof.
  intros Hwf. destruct (wellIndexed_lookup cur Hwf) as [Hnil|[lesson Hl]].
  - exists (code cur), storage. rewrite setCode_same. by apply settle_empty.
  - rewrite (settle_lesson prev cur storage lesson Hl).
    repeat case_bool_decide; eexists _, _;
      try (rewrite setCode_same; reflexivity); reflexivity.
Qed.

Lemma inSync_deps st st' storage :
  saveDeps st = saveDeps st' -> inSync st storage -> inSync st' storage.
Proof.
  unfold saveDeps, inSync. intros [= Hcode Hidx Hls] Hsync lesson.
  rewrite <- Hcode, <- Hidx, <- Hls. apply Hsync.
Qed.

Lemma settle_inSync prev cur storage st' storage' :
  settle 2 prev cur storage = Some (st', storage') ->
  wellIndexed cur ->
  (saveDeps prev = saveDeps cur -> inSync cur storage) ->
  inSync st' storage'.
Proof.
  intros Hsettle Hwf Hsame.
  destruct (wellIndexed_lookup cur Hwf) as [Hnil|[lesson Hl]].
  - rewrite settle_empty in Hsettle by done. injection Hsettle as <- <-.
    intros l Hlook. rewrite Hnil in Hlook. by rewrite lookup_nil in Hlook.
  - rewrite (settle_lesson prev cur storage lesson Hl) in Hsettle.
    repeat case_bool_decide; injection Hsettle as <- <-.
    + by apply Hsame.
    + intros l Hlook. rewrite Hl in Hlook. injection Hlook as <-.
      left. apply lookup_insert_eq.
    + intros l Hlook. simpl in Hlook. rewrite Hl in Hlook.
      injection Hlook as <-. left. apply lookup_insert_eq.
Qed.

Lemma controlsShown_lessons st :
  controlsShown st = true ->
  loading st = false /\ lessons st <> [].
Proof.
  unfold controlsShown, render.
  destruct (loading st); [done|].
  destruct (errorShown (error st)); [done|].
  destruct (lessons st); [done|]. by intros _.
Qed.

(** What a handler keeps, before the effects run. *)
Lemma handle_keeps ev st storage st1 storage1 :
  wellIndexed st -> oneReport st -> inSync st storage ->
  enabled ev st = true ->
  handle ev st storage = Some (st1, storage1) ->
  wellIndexed st1 /\ oneReport st1
  /\ (saveDeps st = saveDeps st1 -> inSync st1 storage1).
Proof.
  intros Hwf Hone Hsync Hen Hhandle.
  destruct Hwf as [Hload Hidx].
  destruct ev as [o| | |i| | |value|event]; simpl in *.
  - (* the fetch ends *)
    injection Hhandle as <- <-. specialize (Hload Hen).
    rewrite Hload in Hidx.
    split; [|split; [|by intros Hd; apply (inSync_deps _ _ _ Hd)]].
    + unfold wellIndexed, fetchLessonsEffect. split; [done|].
      destruct o as [|[] status [data|]]; simpl; rewrite ?Hload; try done.
      destruct data; simpl; [done|lia].
    + unfold oneReport, fetchLessonsEffect in *.
      by destruct o as [|[] status [data|]].
  - (* next *)
    injection Hhandle as <- <-.
    split; [|split; [|by intros Hd; apply (inSync_deps _ _ _ Hd)]].
    + unfold wellIndexed, goToNextLesson.
      destruct (Z.ltb_spec (Z.of_nat (currentLessonIndex st))
                  (Z.of_nat (length (lessons st)) - 1)); [|done].
      simpl. split; [done|]. destruct (lessons st); simpl in *; lia.
    + unfold oneReport, goToNextLesson in *.
      destruct (_ <? _)%Z; [by simpl|done].
  - (* previous *)
    injection Hhandle as <- <-.
    split; [|split; [|by intros Hd; apply (inSync_deps _ _ _ Hd)]].
    + unfold wellIndexed, goToPreviousLesson.
      destruct (Nat.ltb_spec 0 (currentLessonIndex st)); [|done].
      simpl. split; [done|]. destruct (lessons st); simpl in *; lia.
    + unfold oneReport, goToPreviousLesson in *.
      destruct (_ <? _)%nat; [by simpl|done].
  - (* an option of the drop-down *)
    injection Hhandle as <- <-.
    apply andb_prop in Hen as [_ Hi]. apply Nat.ltb_lt in Hi.
    split; [|split; [|by intros Hd; apply (inSync_deps _ _ _ Hd)]].
    + unfold wellIndexed. simpl. split; [done|].
      destruct (lessons st); simpl in *; lia.
    + by unfold oneReport.
  - (* reset *)
    unfold handleResetCode in Hhandle.
    destruct (0 <? length (lessons st))%nat.
    + destruct (lessons st !! currentLessonIndex st) as [lesson|] eqn:Hl;
        [|done].
      simpl in Hhandle. injection Hhandle as <- <-.
      split; [done|]. split; [by unfold oneReport|].
      unfold saveDeps. simpl. intros [= Hcode].
      intros l Hlook. simpl in Hlook. rewrite Hl in Hlook.
      injection Hlook as <-. right. split; [apply lookup_delete_eq|done].
    + injection Hhandle as <- <-. by split; [|split].
  - (* hint *)
    injection Hhandle as <- <-.
    split; [done|]. split; [done|].
    by intros Hd; apply (inSync_deps _ _ _ Hd).
  - (* the editor *)
    injection Hhandle as <- <-.
    split; [done|]. split; [done|].
    by intros Hd; apply (inSync_deps _ _ _ Hd).
  - (* a message *)
    injection Hhandle as <- <-.
    split; [|split; [|by intros Hd; apply (inSync_deps _ _ _ Hd)]].
    + by destruct event as [[text|[p|]|]|].
    + unfold oneReport in *. by destruct event as [[text|[p|]|]|].
Qed.

Lemma step_handle ev st storage st1 storage1 :
  handle ev st storage = Some (st1, storage1) ->
  step ev (st, storage) = settle 2 st st1 storage1.
Proof. intros Hhandle. unfold step. cbn [fst snd]. by rewrite Hhandle. Qed.

Lemma step_handle_None ev st storage :
  handle ev st storage = None -> step ev (st, storage) = None.
Proof. intros Hhandle. unfold step. cbn [fst snd]. by rewrite Hhandle. Qed.

(** The three invariants together, by induction on the steps. *)
Lemma reachable_keeps (s : AppState * Storage) :
  reachable s ->
  wellIndexed s.1 /\ oneReport s.1 /\ inSync s.1 s.2.
Proof.
  induction 1 as [storage|ev [st storage] [st' storage'] Hreach IH Hen Hstep].
  - split; [|split].
    + by split.
    + by intros ?.
    + intros lesson Hl. by simpl in Hl.
  - cbn [fst snd] in *. destruct IH as (Hwf & Hone & Hsync).
    destruct (handle ev st storage) as [[st1 storage1]|] eqn:Hhandle;
      [|by rewrite step_handle_None in Hstep].
    rewrite (step_handle _ _ _ _ _ Hhandle) in Hstep.
    destruct (handle_keeps ev st storage st1 storage1 Hwf Hone Hsync Hen
                Hhandle) as (Hwf1 & Hone1 & Hsync1).
    destruct (settle_total st st1 storage1 Hwf1) as (text & sto & Hsettle).
    pose proof (settle_inSync st st1 storage1 st' storage' Hstep Hwf1 Hsync1)
      as Hsync'.
    rewrite Hsettle in Hstep. injection Hstep as <- <-.
    split; [done|]. split; [done|]. done.
Qed.

(** X1. In every state the component can reach, the index designates a
    lesson whenever there are lessons, there are no lessons while the
    component is loading, and the result text and the test result are not
    shown together. *)
Theorem reachable_index_and_report (s : AppState * Storage) :
  reachable s ->
  (loading s.1 = true -> lessons s.1 = [])
  /\ (lessons s.1 <> [] -> currentLessonIndex s.1 < length (lessons s.1))
  /\ (lessons s.1 = [] -> currentLessonIndex s.1 = 0)
  /\ (testResult s.1 <> None -> result s.1 = "").
Proof.
  intros Hreach.
  destruct (reachable_keeps s Hreach) as ([Hload Hidx] & Hone & _).
  split; [done|]. split; [|split; [|done]].
  - intros Hne. by destruct (lessons s.1).
  - intros Hnil. by rewrite Hnil in Hidx.
Qed.

(** X2. In every state the component can reach, the storage holds the
    editor text under the key of the current lesson, or holds nothing
    under that key while the editor holds the starter code. *)
Theorem reachable_in_sync (s : AppState * Storage) (lesson : Lesson) :
  reachable s ->
  lessons s.1 !! currentLessonIndex s.1 = Some lesson ->
  s.2 !! codeKey (id lesson) = Some (code s.1)
  \/ (s.2 !! codeKey (id lesson) = None
      /\ code s.1 = initialCode lesson).
Proof.
  intros Hreach Hl.
  destruct (reachable_keeps s Hreach) as (_ & _ & Hsync).
  by apply Hsync.
Qed.

(** X3. No handler and no effect raises a [TypeError] in a state the
    component can reach: every enabled event has a next state, and the
    render function returns a view. *)
Theorem reachable_never_fails (s : AppState * Storage) (ev : Event) :
  reachable s ->
  is_Some (render s.1)
  /\ (enabled ev s.1 = true -> is_Some (step ev s)).
Proof.
  intros Hreach.
  destruct (reachable_keeps s Hreach) as (Hwf & Hone & Hsync).
  destruct s as [st storage]. simpl in *. split.
  - unfold render. destruct (loading st); [done|].
    destruct (errorShown (error st)); [done|].
    destruct (wellIndexed_lookup st Hwf) as [Hnil|[lesson Hl]].
    + by rewrite Hnil.
    + rewrite Hl. by destruct (length (lessons st) =? 0)%nat.
  - intros Hen.
    assert (Hhandle : is_Some (handle ev st storage)).
    { destruct ev; try done. simpl. unfold handleResetCode.
      destruct (0 <? length (lessons st))%nat eqn:Hne; [|done].
      destruct (wellIndexed_lookup st Hwf) as [Hnil|[lesson Hl]].
      - by rewrite Hnil in Hne.
      - by rewrite Hl. }
    destruct Hhandle as [[st1 storage1] Hhandle].
    rewrite (step_handle _ _ _ _ _ Hhandle).
    destruct (handle_keeps ev st storage st1 storage1 Hwf Hone Hsync Hen
                Hhandle) as (Hwf1 & _ & _).
    destruct (settle_total st st1 storage1 Hwf1) as (text & sto & Hsettle).
    by rewrite Hsettle.
Qed.

End Machine.

(** ** Navigation and persistence *)

Section Navigation.
Implicit Types (st : AppState) (storage : Storage) (lesson : Lesson).

(** X4. With the index inside the list, each navigation button is disabled
    exactly when its handler would do nothing. *)
Theorem buttons_disabled_iff_handlers_idle st :
  currentLessonIndex st < length (lessons st) ->
  (nextDisabled st = true <-> goToNextLesson st = st)
  /\ (previousDisabled st = true <-> goToPreviousLesson st = st).
Proof.
  intros Hlt. unfold nextDisabled, previousDisabled, goToNextLesson,
    goToPreviousLesson. split.
  - destruct (Z.eqb_spec (Z.of_nat (currentLessonIndex st))
                (Z.of_nat (length (lessons st)) - 1)) as [Heq|Hne];
    destruct (Z.ltb_spec (Z.of_nat (currentLessonIndex st))
                (Z.of_nat (length (lessons st)) - 1)) as [Hl|Hl];
      try lia; split; try done.
    intros Hst. apply (f_equal currentLessonIndex) in Hst. simpl in Hst. lia.
  - destruct (Nat.eqb_spec (currentLessonIndex st) 0) as [Heq|Hne];
    destruct (Nat.ltb_spec 0 (currentLessonIndex st)) as [Hl|Hl];
      try lia; split; try done.
    intros Hst. apply (f_equal currentLessonIndex) in Hst. simpl in Hst. lia.
Qed.

(** X5. Before the last lesson, Next followed by Previous comes back to the
    lesson it left, with result text, test result and hint cleared and the
    editor text and lesson list as they were. At the last lesson Next
    does nothing, at the first one Previous does nothing. *)
Theorem next_then_previous st :
  (currentLessonIndex st + 1 < length (lessons st) ->
   goToPreviousLesson (goToNextLesson st)
     = handleLessonSelect (currentLessonIndex st) st)
  /\ (length (lessons st) <= currentLessonIndex st + 1 ->
      goToNextLesson st = st)
  /\ (currentLessonIndex st = 0 -> goToPreviousLesson st = st).
Proof.
  unfold goToNextLesson, goToPreviousLesson, handleLessonSelect.
  split; [|split].
  - intros Hlt.
    destruct (Z.ltb_spec (Z.of_nat (currentLessonIndex st))
                (Z.of_nat (length (lessons st)) - 1)); [|lia].
    simpl. destruct (Nat.ltb_spec 0 (currentLessonIndex st + 1)); [|lia].
    unfold setShowHint, setTestResult, setResult, setCurrentLessonIndex.
    simpl. f_equal. lia.
  - intros Hge.
    by destruct (Z.ltb_spec (Z.of_nat (currentLessonIndex st))
                   (Z.of_nat (length (lessons st)) - 1)); [lia|].
  - intros ->. done.
Qed.

Lemma savedOrInitial_nonempty (text initial : string) :
  text <> "" -> savedOrInitial (Some text) initial = text.
Proof.
  intros Hne. simpl. destruct (String.eqb text "") eqn:Heq; [|done].
  by apply String.eqb_eq in Heq.
Qed.

(** What the loading effect would put in the editor for the current
    lesson of a state in sync: the editor text, or the starter code when
    the editor is empty. *)
Lemma inSync_loaded st storage lesson :
  inSync st storage ->
  lessons st !! currentLessonIndex st = Some lesson ->
  savedOrInitial (storage !! codeKey (id lesson)) (initialCode lesson)
    = if String.eqb (code st) "" then initialCode lesson else code st.
Proof.
  intros Hsync Hl. destruct (Hsync lesson Hl) as [->|[-> Hcode]].
  - simpl. by destruct (String.eqb (code st) "").
  - simpl. rewrite Hcode. by destruct (String.eqb (initialCode lesson) "").
Qed.

(** X6. The text of a lesson survives a visit to another lesson: from a
    reachable state, choosing a lesson with another identifier and then
    the first lesson again brings back the editor text, or the starter
    code if the editor was empty. *)
Theorem leave_and_return st storage (j : nat) (here there : Lesson) :
  reachable (st, storage) ->
  lessons st !! currentLessonIndex st = Some here ->
  lessons st !! j = Some there ->
  id here <> id there ->
  exists s2 s3,
    step (EvSelect j) (st, storage) = Some s2
    /\ step (EvSelect (currentLessonIndex st)) s2 = Some s3
    /\ currentLessonIndex s3.1 = currentLessonIndex st
    /\ code s3.1
         = if String.eqb (code st) "" then initialCode here else code st.
Proof.
  intros Hreach Hhere Hthere Hid.
  destruct (reachable_keeps _ Hreach) as (_ & _ & Hsync).
  cbn [fst snd] in Hsync.
  assert (Hij : j <> currentLessonIndex st) by congruence.
  set (cur := handleLessonSelect j st).
  set (loaded := savedOrInitial (storage !! codeKey (id there))
                                (initialCode there)).
  assert (Hs2 : step (EvSelect j) (st, storage)
                = Some (setCode loaded cur,
                        <[codeKey (id there) := loaded]> storage)).
  { rewrite (step_handle _ _ _ cur storage) by done.
    rewrite (settle_lesson st cur storage there) by done.
    rewrite bool_decide_eq_false_2; [done|].
    unfold loadDeps, cur. simpl. congruence. }
  set (st2 := setCode loaded cur).
  set (storage2 := <[codeKey (id there) := loaded]> storage).
  set (back := handleLessonSelect (currentLessonIndex st) st2).
  set (text := savedOrInitial (storage2 !! codeKey (id here))
                              (initialCode here)).
  assert (Hs3 : step (EvSelect (currentLessonIndex st)) (st2, storage2)
                = Some (setCode text back,
                        <[codeKey (id here) := text]> storage2)).
  { rewrite (step_handle _ _ _ back storage2) by done.
    rewrite (settle_lesson st2 back storage2 here) by done.
    rewrite bool_decide_eq_false_2; [done|].
    unfold loadDeps, back, st2, cur. simpl. congruence. }
  eexists _, _. split; [exact Hs2|]. split; [exact Hs3|].
  split; [done|]. simpl. unfold text, storage2.
  rewrite lookup_insert_ne.
  2:{ intros Heq. apply codeKey_inj in Heq. congruence. }
  by apply inSync_loaded.
Qed.

(** X7. Opening the page again on the storage a session left, with the
    same lessons: the component starts at the first lesson, whatever lesson
    was on display; if that was the first lesson, the editor gets its text
    back, or the starter code if the editor was empty. *)
Theorem reload_restores_first_lesson
    st storage (status : nat) (first : Lesson) :
  reachable (st, storage) ->
  lessons st !! 0 = Some first ->
  exists st' storage',
    step (EvFetched (Response true status (Some (lessons st))))
         (initialState, storage) = Some (st', storage')
    /\ currentLessonIndex st' = 0
    /\ lessons st' = lessons st
    /\ code st' = savedOrInitial (storage !! codeKey (id first))
                                 (initialCode first)
    /\ (currentLessonIndex st = 0 ->
        code st' = if String.eqb (code st) "" then initialCode first
                   else code st).
Proof.
  intros Hreach Hfirst.
  destruct (reachable_keeps _ Hreach) as (_ & _ & Hsync).
  cbn [fst snd] in Hsync.
  set (cur := fetchLessonsEffect (Response true status (Some (lessons st)))
                initialState).
  rewrite (step_handle _ _ _ cur storage) by done.
  rewrite (settle_lesson initialState cur storage first) by done.
  rewrite bool_decide_eq_false_2.
  2:{ unfold loadDeps, cur. simpl. intros [= Heq]. rewrite <- Heq in Hfirst.
      done. }
  eexists _, _. split; [done|]. do 3 (split; [done|]).
  intros Hidx. simpl. apply inSync_loaded; [done|]. by rewrite Hidx.
Qed.

End Navigation.

(** ** More on the script *)

Section ScriptFacts.
Context {E : Engine}.
Implicit Types (e : Env E) (v : JsVal) (w : World E).


(** X13. The success message is posted exactly when the lesson runs no
    tests, the editor text ends normally and the validation (or
    [return false;] in its absence) returns a truthy value. *)
Theorem success_iff (lesson : Lesson) (text : string) e0 :
  MsgResult "Success! Correct!" ∈ posted (buildScript lesson text) e0
  <-> hasTests lesson = false
      /\ exists e1 r e2,
           exec E text e0 = (Normal tt, e1)
           /\ call E (default "return false;" (validation lesson)) e1
                = (Normal r, e2)
           /\ truthy r = true.
Proof.
  set (s := buildScript lesson text). split.
  - intros Hin.
    destruct (exec E text e0) as [[[]|v] e1] eqn:Hexec.
    + destruct (hasTests lesson) eqn:Hhas.
      * exfalso.
        destruct (fullScript_tests s (mkWorld e0 []) e1 Hexec Hhas)
          as (acc & e' & _ & Hfull).
        unfold posted in Hin. rewrite Hfull in Hin. simpl in Hin.
        apply list_elem_of_singleton in Hin. discriminate.
      * split; [done|].
        destruct (call E (default "return false;" (validation lesson)) e1)
          as [[r|v] e2] eqn:Hcall.
        -- exists e1, r, e2. split; [done|]. split; [done|].
           unfold posted in Hin.
           rewrite (fullScript_validation_returns s (mkWorld e0 []) e1 e2 r)
             in Hin by done.
           simpl in Hin. apply list_elem_of_singleton in Hin.
           by destruct (truthy r).
        -- exfalso. unfold posted in Hin.
           rewrite (fullScript_validation_throws s (mkWorld e0 []) e1 e2 v)
             in Hin by done.
           destruct (get_message v); simpl in Hin.
           ++ apply list_elem_of_singleton in Hin. discriminate.
           ++ by apply not_elem_of_nil in Hin.
    + exfalso. destruct (posted_user_throw s e0 e1 v Hexec) as [Hp _].
      rewrite Hp in Hin. destruct (get_message v).
      * apply list_elem_of_singleton in Hin. discriminate.
      * by apply not_elem_of_nil in Hin.
  - intros (Hhas & e1 & r & e2 & Hexec & Hcall & Hr).
    unfold posted.
    rewrite (fullScript_validation_returns s (mkWorld e0 []) e1 e2 r)
      by done.
    simpl. rewrite Hr. by apply list_elem_of_singleton.
Qed.


Lemma countPassed_all (ds : list Detail) :
  countPassed ds = length ds
  <-> Forall (fun d => truthy (d_passed d) = true) ds.
Proof.
  induction ds as [|d ds IH].
  - by split.
  - unfold countPassed in *. simpl. destruct (truthy (d_passed d)) eqn:Hd.
    + simpl. split.
      * intros [= Hlen]. constructor; [done|]. by apply IH.
      * intros Hall. inversion Hall; subst. f_equal. by apply IH.
    + split.
      * intros Hlen.
        pose proof (List.filter_length_le
                      (fun d => truthy (d_passed d)) ds). lia.
      * intros Hall. inversion Hall; subst. congruence.
Qed.

(** X15. The panel of a test result posted by the script is marked
    [success] exactly when every line of it is marked [passed]. *)
Theorem panel_success_iff_all_passed
    (lesson : Lesson) (text : string) e0 (p : TestRunResult) :
  MsgTestResults p ∈ posted (buildScript lesson text) e0 ->
  panelClass p = "success"
  <-> Forall (fun d => entryClass d = "passed") (details p).
Proof.
  intros Hin.
  destruct (posted_testResults_inv _ _ _ Hin)
    as (_ & _ & _ & Htotal & Hpass & Hnames & _).
  assert (Hlen : totalCount p = length (details p)).
  { rewrite Htotal, <- (length_fmap tf_name), <- Hnames.
    by rewrite length_fmap. }
  unfold panelClass. rewrite Hpass, Hlen.
  assert (Hcls : Forall (fun d => entryClass d = "passed") (details p)
                 <-> Forall (fun d => truthy (d_passed d) = true) (details p)).
  { apply Forall_iff. intros d. unfold entryClass.
    by destruct (truthy (d_passed d)). }
  rewrite Hcls, <- countPassed_all.
  destruct (Nat.eqb_spec (countPassed (details p)) (length (details p)));
    by split.
Qed.


End ScriptFacts.

(** ** Glossary, theme, shortcuts *)

Section Chrome.
Implicit Types (st : AppState) (storage : Storage) (m : Expanded).

Lemma isOpen_toggleGlossary m (idx j : nat) :
  isOpen (toggleGlossary idx m) j
    = if decide (j = idx) then negb (isOpen m idx) else isOpen m j.
Proof.
  unfold toggleGlossary. unfold isOpen at 1.
  destruct (decide (j = idx)) as [->|Hne].
  - by rewrite lookup_insert_eq.
  - by rewrite lookup_insert_ne.
Qed.

Lemma renderGlossary_ext (glossary : list GlossaryItem) m1 m2 :
  (forall j, isOpen m1 j = isOpen m2 j) ->
  renderGlossary glossary m1 = renderGlossary glossary m2.
Proof.
  intros Hext. unfold renderGlossary. f_equal.
  apply imap_ext. intros j g _. unfold glossaryRow. by rewrite Hext.
Qed.

(** X17. A click on the header of row [idx] opens the row if it was closed
    and closes it if it was open, and changes no other row. *)
Theorem toggleGlossary_one_row
    (glossary : list GlossaryItem) m (idx j : nat) (g : GlossaryItem) :
  glossary !! j = Some g ->
  (renderGlossary glossary (toggleGlossary idx m)).2 !! j
    = Some (if decide (j = idx)
            then
              let open := negb (isOpen m idx) in
              mkGlossaryRow (term g) open
                (if open then Some (definition g, errorShown (example g))
                 else None)
            else glossaryRow m j g).
Proof.
  intros Hj. unfold renderGlossary. cbn [snd].
  rewrite list_lookup_imap, Hj.
  change (Some (glossaryRow (toggleGlossary idx m) j g) = 
          Some (if decide (j = idx)
            then
              let open := negb (isOpen m idx) in
              mkGlossaryRow (term g) open
                (if open then Some (definition g, errorShown (example g))
                 else None)
            else glossaryRow m j g)).
  f_equal. unfold glossaryRow. rewrite isOpen_toggleGlossary.
  by destruct (decide (j = idx)) as [->|Hne].
Qed.

(** X18. Two clicks on the same header show the pane as it was, though the
    record behind it may have gained an entry; clicks on two headers give
    the same record in either order. *)
Theorem toggleGlossary_twice_and_order
    (glossary : list GlossaryItem) m (i j : nat) :
  renderGlossary glossary (toggleGlossary i (toggleGlossary i m))
    = renderGlossary glossary m
  /\ toggleGlossary i (toggleGlossary i ∅) <> ∅
  /\ toggleGlossary i (toggleGlossary j m)
       = toggleGlossary j (toggleGlossary i m).
Proof.
  split; [|split].
  - apply renderGlossary_ext. intros k.
    rewrite !isOpen_toggleGlossary.
    destruct (decide (k = i)) as [->|Hne]; [|done].
    rewrite decide_True by done. by rewrite negb_involutive.
  - unfold toggleGlossary. intros Heq.
    apply (f_equal (fun x : Expanded => x !! i)) in Heq.
    by rewrite lookup_insert_eq, lookup_empty in Heq.
  - destruct (decide (i = j)) as [->|Hne]; [done|].
    unfold toggleGlossary at 1 3.
    rewrite !isOpen_toggleGlossary.
    rewrite decide_False by done. rewrite (decide_False (P := j = i)) by done.
    unfold toggleGlossary. by apply insert_insert_ne.
Qed.

(** X19. A glossary fetch that fails in any way (request rejected, status
    not ok, body that does not parse) leaves an empty glossary, for which
    the pane shows its note and no row; a fetch that succeeds shows one row
    per item, all closed at first. *)
Theorem glossary_fetch_outcomes (json : option (list GlossaryItem))
    (items : list GlossaryItem) m :
  fetchGlossaryEffect GlossaryNetworkError = []
  /\ fetchGlossaryEffect (GlossaryResponse false json) = []
  /\ fetchGlossaryEffect (GlossaryResponse true None) = []
  /\ renderGlossary [] m = (true, [])
  /\ fetchGlossaryEffect (GlossaryResponse true (Some items)) = items
  /\ (renderGlossary items ∅).2
       = (fun g => mkGlossaryRow (term g) false None) <$> items.
Proof.
  repeat split. unfold renderGlossary. cbn [snd].
  apply list_eq. intros k. rewrite list_lookup_imap, list_lookup_fmap.
  by destruct (items !! k).
Qed.

Lemma ui_key_not_code (lesson_id : string) :
  "ui-theme" <> codeKey lesson_id
  /\ "ui-lesson-width" <> codeKey lesson_id
  /\ "ui-preview-width" <> codeKey lesson_id.
Proof. unfold codeKey. cbn. repeat split; discriminate. Qed.

(** X20. The theme survives a reload: the initializer reads back the theme
    the effect stored, whatever the system prefers; and the effect changes
    no code entry, so the loading effect reads what it read before. *)
Theorem theme_survives_reload (theme : Theme) storage (prefersDark : bool) st :
  initialTheme (themeEffect theme storage).2 prefersDark = theme
  /\ (themeEffect (toggleTheme theme) storage).1 <> themeName theme
  /\ loadCodeEffect st (themeEffect theme storage).2
       = loadCodeEffect st storage.
Proof.
  split; [|split].
  - unfold initialTheme, themeEffect. cbn [snd].
    rewrite lookup_insert_eq. by destruct theme.
  - by destruct theme.
  - unfold loadCodeEffect, themeEffect. cbn [snd].
    destruct (0 <? length (lessons st))%nat; [|done].
    destruct (lessons st !! currentLessonIndex st) as [lesson|]; [|done].
    simpl. rewrite lookup_insert_ne; [done|].
    apply ui_key_not_code.
Qed.

Lemma saveCodeEffect_other st storage storage' (k : string) :
  saveCodeEffect st storage = Some storage' ->
  (forall x, k <> codeKey x) ->
  storage' !! k = storage !! k.
Proof.
  unfold saveCodeEffect. intros Hsave Hk.
  destruct (0 <? length (lessons st))%nat; [|by injection Hsave as <-].
  destruct (lessons st !! currentLessonIndex st) as [lesson|]; [|done].
  simpl in Hsave. injection Hsave as <-.
  apply lookup_insert_ne. intros Heq. by apply (Hk (id lesson)).
Qed.

Lemma runEffects_other prev cur storage next storage' (k : string) :
  runEffects prev cur storage = Some (next, storage') ->
  (forall x, k <> codeKey x) ->
  storage' !! k = storage !! k.
Proof.
  unfold runEffects. intros Hrun Hk.
  destruct (if bool_decide (loadDeps prev = loadDeps cur) then Some cur
            else loadCodeEffect cur storage) as [n|]; [|done].
  simpl in Hrun.
  destruct (bool_decide (saveDeps prev = saveDeps cur)).
  - simpl in Hrun. by injection Hrun as _ <-.
  - destruct (saveCodeEffect cur storage) as [sto|] eqn:Hsave; [|done].
    simpl in Hrun. injection Hrun as _ <-.
    by apply (saveCodeEffect_other cur).
Qed.

Lemma settle_other (fuel : nat) :
  forall prev cur storage st' storage' (k : string),
  settle fuel prev cur storage = Some (st', storage') ->
  (forall x, k <> codeKey x) ->
  storage' !! k = storage !! k.
Proof.
  induction fuel as [|fuel IH]; intros prev cur storage st' storage' k;
    [done|].
  intros Hsettle Hk. cbn [settle] in Hsettle.
  destruct (runEffects prev cur storage) as [[next sto]|] eqn:Hrun; [|done].
  simpl in Hsettle.
  pose proof (runEffects_other _ _ _ _ _ k Hrun Hk) as Hsto.
  destruct (bool_decide (next = cur)).
  - by injection Hsettle as _ <-.
  - rewrite <- Hsto. by apply (IH cur next sto st').
Qed.

(** X21. No handler and no effect of the lesson state touches a storage key
    that is not the code key of a lesson: the stored theme and the stored
    pane widths stay as they are, and with them the theme a reload
    starts with. *)
Theorem step_touches_code_keys_only
    (ev : Event) (s s' : AppState * Storage) (prefersDark : bool) :
  step ev s = Some s' ->
  (forall k : string, (forall x, k <> codeKey x) -> s'.2 !! k = s.2 !! k)
  /\ s'.2 !! "ui-lesson-width" = s.2 !! "ui-lesson-width"
  /\ s'.2 !! "ui-preview-width" = s.2 !! "ui-preview-width"
  /\ initialTheme s'.2 prefersDark = initialTheme s.2 prefersDark.
Proof.
  intros Hstep.
  assert (Hother : forall k : string,
            (forall x, k <> codeKey x) -> s'.2 !! k = s.2 !! k).
  { intros k Hk. destruct s as [st storage], s' as [st' storage'].
    cbn [fst snd] in *.
    destruct (handle ev st storage) as [[st1 storage1]|] eqn:Hhandle;
      [|by rewrite step_handle_None in Hstep].
    rewrite (step_handle _ _ _ _ _ Hhandle) in Hstep.
    rewrite (settle_other 2 _ _ _ _ _ k Hstep Hk).
    destruct ev; simpl in Hhandle; try by injection Hhandle as _ <-.
    unfold handleResetCode in Hhandle.
    destruct (0 <? length (lessons st))%nat; [|by injection Hhandle as _ <-].
    destruct (lessons st !! currentLessonIndex st) as [lesson|]; [|done].
    simpl in Hhandle. injection Hhandle as _ <-.
    apply lookup_delete_ne. intros Heq. by apply (Hk (id lesson)). }
  split; [done|].
  split; [apply Hother; intros x; apply ui_key_not_code|].
  split; [apply Hother; intros x; apply ui_key_not_code|].
  unfold initialTheme. rewrite Hother; [done|].
  intros x; apply ui_key_not_code.
Qed.

Lemma toLowerCase_t (k : string) :
  String.eqb (toLowerCase k) "t" = true <-> k = "t" \/ k = "T".
Proof.
  rewrite String.eqb_eq. split.
  - destruct k as [|c [|d rest]]; [done| |done].
    destruct c as [[] [] [] [] [] [] [] []]; vm_compute; intros H;
      try discriminate H; auto.
  - by intros [-> | ->].
Qed.

(** X22. What a key does. The theme changes exactly on [t] or [T] with
    none of Ctrl, Meta and Alt held; [handleRunCode] is called exactly on
    Enter with Ctrl or Meta held, Alt or not, and then the lesson state
    stays as it is; no key changes the editor text or the lesson list. *)
Theorem onKeyDown_effects
    (frame : bool) (e : KeyboardEvent) st (theme : Theme) (out : KeyOutcome) :
  onKeyDown frame e st theme = Some out ->
  (ko_theme out <> theme <->
     ctrlKey e = false /\ metaKey e = false /\ altKey e = false
     /\ (key e = "t" \/ key e = "T"))
  /\ (is_Some (ko_request out) <->
        (ctrlKey e = true \/ metaKey e = true) /\ key e = "Enter")
  /\ (is_Some (ko_request out) -> ko_app out = st)
  /\ code (ko_app out) = code st
  /\ lessons (ko_app out) = lessons st.
Proof.
  unfold onKeyDown. intros Hout.
  pose proof (toLowerCase_t (key e)) as Ht.
  destruct e as [ctrl meta alt shift k]. simpl in *.
  destruct ((ctrl || meta) && String.eqb k "Enter") eqn:HA.
  { apply andb_prop in HA as [Hcm HE]. apply String.eqb_eq in HE.
    apply orb_prop in Hcm.
    destruct (handleRunCode frame st) as [r|]; [|done].
    simpl in Hout. injection Hout as <-. simpl.
    split. { split; [done|]. intros (-> & -> & _). by destruct Hcm. }
    split. { split; [done|]. intros _. by eexists. }
    done. }
  assert (HnotA : ~ ((ctrl = true \/ meta = true) /\ k = "Enter")).
  { intros [Hcm ->]. rewrite String.eqb_refl in HA.
    destruct Hcm as [-> | ->]; simpl in HA; [done|].
    by rewrite orb_true_r in HA. }
  destruct (alt && String.eqb k "ArrowLeft") eqn:HB.
  { apply andb_prop in HB as [-> _]. injection Hout as <-. simpl.
    split. { split; [done|]. by intros (_ & _ & ? & _). }
    split. { split; [by intros [? ?]|done]. }
    split; [by intros [? ?]|].
    unfold goToPreviousLesson. by destruct (_ <? _)%nat. }
  destruct (alt && String.eqb k "ArrowRight") eqn:HC.
  { apply andb_prop in HC as [-> _]. injection Hout as <-. simpl.
    split. { split; [done|]. by intros (_ & _ & ? & _). }
    split. { split; [by intros [? ?]|done]. }
    split; [by intros [? ?]|].
    unfold goToNextLesson. by destruct (_ <? _)%Z. }
  destruct (negb ctrl && negb meta && negb alt
            && String.eqb (toLowerCase k) "t") eqn:HD.
  { injection Hout as <-. simpl.
    apply andb_prop in HD as [HD Hlow]. apply andb_prop in HD as [HD Halt].
    apply andb_prop in HD as [Hctrl Hmeta].
    apply negb_true_iff in Hctrl, Hmeta, Halt. apply Ht in Hlow.
    split. { split; [done|]. intros _. by destruct theme. }
    split. { split; [by intros [? ?]|done]. }
    split; [by intros [? ?]|done]. }
  injection Hout as <-. simpl.
  split.
  { split; [done|]. intros (-> & -> & -> & Hk). apply Ht in Hk.
    simpl in HD. by rewrite Hk in HD. }
  split. { split; [by intros [? ?]|done]. }
  split; [by intros [? ?]|done].
Qed.

End Chrome.

(** ** Splitters *)

Section SplitterFacts.
Context {D : Doubles}.
Implicit Types (x : option (num D)) (w : Widths D).

Lemma clamp_clamped x :
  (forall a, le D a a) ->
  (forall a b, le D a b \/ le D b a) ->
  le D (n15 D) (n45 D) ->
  clamped (mathMin (Some (n45 D)) (mathMax (Some (n15 D)) x)).
Proof.
  intros Hrefl Htotal Hbounds. destruct x as [v|]; [|done].
  unfold mathMax, mathMin, clamped. simpl.
  destruct (decide (le D (n15 D) v)) as [Hlow|Hlow].
  - destruct (decide (le D (n45 D) v)) as [Hhigh|Hhigh]; [by split|].
    split; [done|]. by destruct (Htotal (n45 D) v).
  - destruct (decide (le D (n45 D) (n15 D))) as [Hhigh|Hhigh]; by split.
Qed.

(** X23. While a splitter is dragged, the width of the pane it resizes is
    NaN or between 15 and 45, wherever the pointer is and whatever the
    widths were, and the other pane keeps its width. *)
Theorem onMove_clamps (which : Which) (containerWidth startX clientX : num D)
    (starting w : Widths D) :
  (forall a, le D a a) ->
  (forall a b, le D a b \/ le D b a) ->
  le D (n15 D) (n45 D) ->
  let w' := onMove which containerWidth startX starting clientX w in
  match which with
  | WhichLeft =>
      clamped (lessonWidthPct w')
      /\ previewWidthPct w' = previewWidthPct w
  | WhichRight =>
      clamped (previewWidthPct w')
      /\ lessonWidthPct w' = lessonWidthPct w
  end.
Proof.
  intros Hrefl Htotal Hbounds. unfold onMove.
  destruct which; simpl; (split; [by apply clamp_clamped|done]).
Qed.

(** X24. An arrow key on a splitter keeps the widths between 15 and 45 (or
    NaN) if they were, given that subtracting a step does not increase a
    number and adding one does not decrease it; it changes the width of
    one pane only; any other key changes nothing and is not prevented. *)
Theorem onSplitterKeyDown_keeps_range
    (which : Which) (e : KeyboardEvent) w :
  (forall a, le D a a) ->
  (forall a b c, le D a b -> le D b c -> le D a c) ->
  (forall a b, le D a b \/ le D b a) ->
  le D (n15 D) (n45 D) ->
  (forall step a b, step = n2 D \/ step = n5 D ->
     (sub D a step = Some b -> le D b a)
     /\ (add D a step = Some b -> le D a b)) ->
  clamped (lessonWidthPct w) ->
  clamped (previewWidthPct w) ->
  let w' := (onSplitterKeyDown which e w).1 in
  clamped (lessonWidthPct w')
  /\ clamped (previewWidthPct w')
  /\ match which with
     | WhichLeft => previewWidthPct w' = previewWidthPct w
     | WhichRight => lessonWidthPct w' = lessonWidthPct w
     end
  /\ ((onSplitterKeyDown which e w).2 = false -> w' = w)
  /\ ((onSplitterKeyDown which e w).2 = true <->
        key e = "ArrowLeft" \/ key e = "ArrowRight").
Proof.
  intros Hrefl Htrans Htotal Hbounds Hstep Hl Hp.
  assert (Hs : (if shiftKey e then n5 D else n2 D) = n2 D
               \/ (if shiftKey e then n5 D else n2 D) = n5 D)
    by (destruct (shiftKey e); auto).
  set (step := if shiftKey e then n5 D else n2 D) in *.
  assert (Hdown : forall x, clamped x ->
            clamped (mathMax (Some (n15 D)) (lift2 (sub D) x (Some step)))).
  { intros [v|] Hv; [|done]. simpl.
    destruct (sub D v step) as [b|] eqn:Hsub; [|done].
    apply (Hstep step v b Hs) in Hsub. destruct Hv as [Hlow Hhigh].
    unfold mathMax, clamped. simpl.
    destruct (decide (le D (n15 D) b)); split; eauto. }
  assert (Hup : forall x, clamped x ->
            clamped (mathMin (Some (n45 D)) (lift2 (add D) x (Some step)))).
  { intros [v|] Hv; [|done]. simpl.
    destruct (add D v step) as [b|] eqn:Hadd; [|done].
    apply (Hstep step v b Hs) in Hadd. destruct Hv as [Hlow Hhigh].
    unfold mathMin, clamped. simpl.
    destruct (decide (le D (n45 D) b)) as [Hb|Hb]; split; eauto.
    by destruct (Htotal (n45 D) b). }
  unfold onSplitterKeyDown. fold step.
  destruct (String.eqb_spec (key e) "ArrowLeft") as [HL|HL].
  { destruct which; cbn [fst snd lessonWidthPct previewWidthPct];
      (split; [auto|]); (split; [auto|]); (split; [done|]);
      (split; [done|]); split; auto. }
  destruct (String.eqb_spec (key e) "ArrowRight") as [HR|HR].
  { destruct which; cbn [fst snd lessonWidthPct previewWidthPct];
      (split; [auto|]); (split; [auto|]); (split; [done|]);
      (split; [done|]); split; auto. }
  cbn [fst snd]. split; [done|]. split; [done|].
  split; [by destruct which|]. split; [done|].
  split; [done|]. by intros [?|?].
Qed.

End SplitterFacts.

(** ** The facts above at concrete inputs *)

Lemma demo_reachable : reachable Demo.loaded.
Proof.
  apply (reachable_step (EvFetched Demo.fetched) (initialState, ∅));
    [apply reachable_initial | reflexivity | reflexivity].
Qed.

Lemma reachable_index_and_report_witness :
  (loading Demo.loaded.1 = true -> lessons Demo.loaded.1 = [])
  /\ (lessons Demo.loaded.1 <> [] ->
      currentLessonIndex Demo.loaded.1 < length (lessons Demo.loaded.1))
  /\ (lessons Demo.loaded.1 = [] -> currentLessonIndex Demo.loaded.1 = 0)
  /\ (testResult Demo.loaded.1 <> None -> result Demo.loaded.1 = "").
Proof.
  apply (reachable_index_and_report Demo.loaded).
  apply (reachable_step (EvFetched Demo.fetched) (initialState, ∅));
    [apply reachable_initial | reflexivity | reflexivity].
Defined.

Lemma reachable_in_sync_witness :
  Demo.loaded.2 !! codeKey "sum" = Some "// add here"
  \/ (Demo.loaded.2 !! codeKey "sum" = None
      /\ code Demo.loaded.1 = "// add here").
Proof.
  apply (reachable_in_sync Demo.loaded Mini.lessonWithTests).
  - apply (reachable_step (EvFetched Demo.fetched) (initialState, ∅));
      [apply reachable_initial | reflexivity | reflexivity].
  - reflexivity.
Defined.

Lemma reachable_never_fails_witness :
  is_Some (render Demo.loaded.1)
  /\ (enabled EvReset Demo.loaded.1 = true ->
      is_Some (step EvReset Demo.loaded)).
Proof.
  apply (reachable_never_fails Demo.loaded EvReset).
  apply (reachable_step (EvFetched Demo.fetched) (initialState, ∅));
    [apply reachable_initial | reflexivity | reflexivity].
Defined.

Lemma buttons_disabled_witness :
  (nextDisabled Demo.loaded.1 = true
     <-> goToNextLesson Demo.loaded.1 = Demo.loaded.1)
  /\ (previousDisabled Demo.loaded.1 = true
        <-> goToPreviousLesson Demo.loaded.1 = Demo.loaded.1).
Proof.
  apply (buttons_disabled_iff_handlers_idle Demo.loaded.1).
  simpl. lia.
Defined.

Lemma leave_and_return_witness :
  exists s2 s3,
    step (EvSelect 1) Demo.loaded = Some s2
    /\ step (EvSelect 0) s2 = Some s3
    /\ currentLessonIndex s3.1 = 0
    /\ code s3.1 = "// add here".
Proof.
  apply (leave_and_return Demo.loaded.1 Demo.loaded.2 1
           Mini.lessonWithTests Mini.lessonValidated).
  - apply (reachable_step (EvFetched Demo.fetched) (initialState, ∅));
      [apply reachable_initial | reflexivity | reflexivity].
  - reflexivity.
  - reflexivity.
  - discriminate.
Defined.

Lemma reload_restores_witness :
  exists st' storage',
    step (EvFetched (Response true 200 (Some Demo.lessons2)))
         (initialState, Demo.loaded.2) = Some (st', storage')
    /\ currentLessonIndex st' = 0
    /\ lessons st' = Demo.lessons2
    /\ code st' = "// add here"
    /\ (0 = 0 -> code st' = "// add here").
Proof.
  apply (reload_restores_first_lesson Demo.loaded.1 Demo.loaded.2 200
           Mini.lessonWithTests).
  - apply (reachable_step (EvFetched Demo.fetched) (initialState, ∅));
      [apply reachable_initial | reflexivity | reflexivity].
  - reflexivity.
Defined.



Lemma panel_success_witness :
  let p :=
    mkTestRunResult 1 4
      [mkDetail "ok" (Bool true) None;
       mkDetail "bad" (Bool false) None;
       mkDetail "throws" (Bool false) (Some "nope");
       mkDetail "null" (Bool false) (Some "null")] in
  panelClass p = "success"
  <-> Forall (fun d => entryClass d = "passed") (details p).
Proof.
  intros p.
  apply (panel_success_iff_all_passed (E:=Mini.engine) Mini.lessonMixed
           "let a = 1" 0%nat p).
  apply list_elem_of_singleton. reflexivity.
Defined.




Lemma reset_then_save_witness :
  runEffects
    (Mini.app Demo.lessons2 1 "let x = 5")
    (setTestResult None
       (setResult "Code has been reset."
          (setCode "let x = 1" (Mini.app Demo.lessons2 1 "let x = 5"))))
    (delete (codeKey "val") {[ codeKey "val" := "let x = 5" ]})
  = Some (setTestResult None
            (setResult "Code has been reset."
               (setCode "let x = 1" (Mini.app Demo.lessons2 1 "let x = 5"))),
          <[codeKey "val" := "let x = 1"]>
            (delete (codeKey "val") {[ codeKey "val" := "let x = 5" ]})).
Proof.
  apply (reset_then_save (Mini.app Demo.lessons2 1 "let x = 5")
           {[ codeKey "val" := "let x = 5" ]} Mini.lessonValidated).
  - reflexivity.
  - reflexivity.
  - discriminate.
Defined.

Lemma select_then_settle_witness :
  let st := Mini.app Demo.lessons2 0 "my sum" in
  let storage : Storage := {[ codeKey "val" := "let x = 7" ]} in
  runEffects st (handleLessonSelect 1 st) storage
    = Some (setCode "let x = 7" (handleLessonSelect 1 st),
            <[codeKey "val" := "my sum"]> storage)
  /\ settle 2 st (handleLessonSelect 1 st) storage
    = Some (setCode "let x = 7" (handleLessonSelect 1 st),
            <[codeKey "val" := "let x = 7"]> storage).
Proof.
  intros st storage.
  apply (select_then_settle st storage 1 Mini.lessonValidated).
  - reflexivity.
  - discriminate.
Defined.

Lemma toggleGlossary_one_row_witness :
  (renderGlossary Demo.glossary2 (toggleGlossary 1 ∅)).2 !! 1
    = Some (mkGlossaryRow "hoisting" true
              (Some ("Declarations move up.", Some "var x;"))).
Proof.
  refine (eq_trans
            (toggleGlossary_one_row Demo.glossary2 ∅ 1 1
               (mkGlossaryItem "hoisting" "Declarations move up."
                               (Some "var x;")) _) _);
    reflexivity.
Defined.

Lemma step_touches_code_keys_witness :
  let s : AppState * Storage :=
    (Demo.loaded.1, <["ui-theme" := "light"]> Demo.loaded.2) in
  exists s',
    step (EvEdit "let z") s = Some s'
    /\ s'.2 !! "ui-theme" = Some "light"
    /\ initialTheme s'.2 true = Light.
Proof.
  intros s. eexists. split; [reflexivity|].
  destruct (step_touches_code_keys_only (EvEdit "let z") s _ true eq_refl)
    as (_ & _ & _ & Htheme).
  split; [reflexivity|exact Htheme].
Defined.

Lemma onKeyDown_effects_witness :
  let e := mkKeyboardEvent true false true false "Enter" in
  let st := Demo.loaded.1 in
  let out :=
    mkKeyOutcome st Dark
      (Some (PostedScript (buildScript Mini.lessonWithTests "// add here")))
      true in
  (ko_theme out <> Dark <->
     ctrlKey e = false /\ metaKey e = false /\ altKey e = false
     /\ (key e = "t" \/ key e = "T"))
  /\ (is_Some (ko_request out) <->
        (ctrlKey e = true \/ metaKey e = true) /\ key e = "Enter")
  /\ (is_Some (ko_request out) -> ko_app out = st)
  /\ code (ko_app out) = code st
  /\ lessons (ko_app out) = lessons st.
Proof.
  intros e st out.
  apply (onKeyDown_effects true e st Dark out).
  reflexivity.
Defined.

Lemma onMove_clamps_witness :
  let w' :=
    onMove (D:=integers) WhichLeft 1000%Z 300%Z
           (mkWidths (D:=integers) (Some 26%Z) (Some 26%Z)) 900%Z
           (mkWidths (D:=integers) (Some 30%Z) (Some 26%Z)) in
  clamped (lessonWidthPct w')
  /\ previewWidthPct w' = Some 26%Z.
Proof.
  apply (onMove_clamps (D:=integers) WhichLeft 1000%Z 300%Z 900%Z
           (mkWidths (D:=integers) (Some 26%Z) (Some 26%Z))
           (mkWidths (D:=integers) (Some 30%Z) (Some 26%Z))); simpl; lia.
Defined.

Lemma onSplitterKeyDown_witness :
  let e := mkKeyboardEvent false false false true "ArrowRight" in
  let w := mkWidths (D:=integers) (Some 43%Z) (Some 26%Z) in
  let w' := (onSplitterKeyDown WhichLeft e w).1 in
  clamped (lessonWidthPct w')
  /\ clamped (previewWidthPct w')
  /\ previewWidthPct w' = previewWidthPct w
  /\ ((onSplitterKeyDown WhichLeft e w).2 = false -> w' = w)
  /\ ((onSplitterKeyDown WhichLeft e w).2 = true <->
        key e = "ArrowLeft" \/ key e = "ArrowRight").
Proof.
  intros e w.
  apply (onSplitterKeyDown_keeps_range (D:=integers) WhichLeft e w).
  - simpl. lia.
  - simpl. lia.
  - simpl. lia.
  - simpl. lia.
  - simpl. intros step a b [-> | ->]; split; intros [= <-]; lia.
  - simpl. lia.
  - simpl. lia.
Defined.
